(** * Namespace routing pipeline of [main.py]

    A shallow embedding of the knowledge-store accessors, the three agents
    and the orchestrator of [src/main.py], followed by the properties
    checked against it.

    Modelling conventions.
    - Python [str] values are [string]s whose characters are read as ASCII
      code points; [str.upper], [str.strip] and [str.isspace] are given on
      that range (codes above 127 are left alone and are not blank).
    - A Python [dict] is an association list in insertion order, read with
      [dict_get] (first binding of the key).
    - [print] and the call to the generation backend are the two effects;
      both are recorded in an explicit [World] threaded by the monad [M]. *)

From Stdlib Require Import Strings.String Strings.Ascii Lists.List.
From Stdlib Require Import ZArith.ZArith Bool.Bool Arith.Arith micromega.Lia.
From Stdlib Require Import Numbers.DecimalString Numbers.DecimalPos.
From Stdlib Require Import Numbers.DecimalZ.
Import ListNotations.

Local Open Scope list_scope.
Local Open Scope string_scope.

#[local] Set Warnings "-register-all".

(* ================================================================== *)
(** ** Python string primitives *)
(* ================================================================== *)

Module PyStr.

(** The double-quote character, and the control characters Python writes
    with a backslash escape. *)
Definition dquote : ascii := "034"%char.
Definition squote : ascii := "039"%char.
Definition backslash : ascii := "092"%char.
Definition lf : ascii := "010"%char.
Definition cr : ascii := "013"%char.
Definition tab : ascii := "009"%char.
Definition backspace : ascii := "008"%char.
Definition formfeed : ascii := "012"%char.
Definition comma : ascii := ","%char.

Definition dq : string := String dquote "".
Definition nl : string := String lf "".

(** [c.isspace()] on ASCII: TAB, LF, VT, FF, CR, the four separators
    FS, GS, RS, US, and the space. *)
Definition is_space (c : ascii) : bool :=
  let n := nat_of_ascii c in
  (((9 <=? n) && (n <=? 13)) || ((28 <=? n) && (n <=? 32)))%nat.

(** [c.upper()] on ASCII: the letters a..z move to A..Z. *)
Definition upper_char (c : ascii) : ascii :=
  let n := nat_of_ascii c in
  if ((97 <=? n) && (n <=? 122))%nat then ascii_of_nat (n - 32) else c.

(** [s.upper()] *)
Fixpoint upper (s : string) : string :=
  match s with
  | "" => ""
  | String c s' => String (upper_char c) (upper s')
  end.

(** [s.lstrip()] *)
Fixpoint lstrip (s : string) : string :=
  match s with
  | "" => ""
  | String c s' => if is_space c then lstrip s' else s
  end.

(** [s.rstrip()]: a blank character is dropped when nothing but blanks
    follows it. *)
Fixpoint rstrip (s : string) : string :=
  match s with
  | "" => ""
  | String c s' =>
      match rstrip s' with
      | "" => if is_space c then "" else String c ""
      | r => String c r
      end
  end.

(** [s.strip()] *)
Definition strip (s : string) : string := rstrip (lstrip s).

(** [s.split(sep)] for a one-character separator: never the empty list. *)
Fixpoint split (sep : ascii) (s : string) : list string :=
  match s with
  | "" => [""]
  | String c s' =>
      if Ascii.eqb c sep then "" :: split sep s'
      else match split sep s' with
           | piece :: rest => String c piece :: rest
           | [] => [String c ""]
           end
  end.

(** [sep.join(pieces)] *)
Fixpoint join (sep : string) (pieces : list string) : string :=
  match pieces with
  | [] => ""
  | [p] => p
  | p :: rest => p ++ sep ++ join sep rest
  end.

(** [hay.startswith(needle)] *)
Fixpoint startswith (needle hay : string) : bool :=
  match needle, hay with
  | "", _ => true
  | String _ _, "" => false
  | String a needle', String b hay' => Ascii.eqb a b && startswith needle' hay'
  end.

(** [needle in hay] *)
Fixpoint contains (needle hay : string) : bool :=
  startswith needle hay ||
  match hay with
  | "" => false
  | String _ hay' => contains needle hay'
  end.

(** [" " * n] *)
Fixpoint spaces (n : nat) : string :=
  match n with
  | O => ""
  | S k => String " "%char (spaces k)
  end.

(** Lower-case hexadecimal digit of a value below sixteen. *)
Definition hex_digit (n : nat) : ascii :=
  if (n <? 10)%nat then ascii_of_nat (48 + n) else ascii_of_nat (87 + n).

(** Two lower-case hexadecimal digits of a character code. *)
Definition hex2 (c : ascii) : string :=
  let n := nat_of_ascii c in
  String (hex_digit (n / 16)) (String (hex_digit (n mod 16)) "").

(** [repr(z)] of a Python [int]. *)
Definition int_repr (z : Z) : string := NilZero.string_of_int (Z.to_int z).

(** *** Vocabulary of the statements below *)

(** Every character is blank (so is the empty string). *)
Fixpoint blank (s : string) : bool :=
  match s with
  | "" => true
  | String c s' => is_space c && blank s'
  end.

(** No character is blank. *)
Fixpoint solid (s : string) : bool :=
  match s with
  | "" => true
  | String c s' => negb (is_space c) && solid s'
  end.

(** [x] occurs in [s], with any text before and after it. *)
Definition occurs_in (x s : string) : Prop :=
  exists before after : string, s = before ++ x ++ after.

(** A function applied to the first, or to the last, element of a list. *)
Definition map_head {A : Type} (f : A -> A) (l : list A) : list A :=
  match l with
  | [] => []
  | x :: rest => f x :: rest
  end.

Fixpoint map_last {A : Type} (f : A -> A) (l : list A) : list A :=
  match l with
  | [] => []
  | [x] => [f x]
  | x :: rest => x :: map_last f rest
  end.

End PyStr.
Import PyStr.

(* ================================================================== *)
(** ** JSON values as [json.load] builds them *)
(* ================================================================== *)

Module Json.

(** A Python [float]: a finite one is identified with the text
    [float.__repr__] prints for it. *)
Inductive PyFloat : Type :=
| Finite (repr : string)
| PosInf
| NegInf
| NaN.

(** A Python [dict] with [str] keys, in insertion order. *)
Definition dict (V : Type) : Type := list (string * V).

Inductive JSON : Type :=
| JNull
| JBool (b : bool)
| JInt (z : Z)
| JFloat (f : PyFloat)
| JStr (s : string)
| JArr (items : list JSON)
| JObj (members : list (string * JSON)).

(** [d.get(k)] *)
Fixpoint dict_get {V : Type} (d : dict V) (k : string) : option V :=
  match d with
  | [] => None
  | (k', v) :: rest => if String.eqb k' k then Some v else dict_get rest k
  end.

(** [d.get(k, default)] *)
Definition dict_get_or {V : Type} (d : dict V) (k : string) (default : V) : V :=
  match dict_get d k with
  | Some v => v
  | None => default
  end.

(** *** [json.dumps(v, indent=2)] *)

(** One character of a string literal, [ensure_ascii] being on: the
    quote and the backslash are escaped, as is everything outside the
    printable range from the space to the tilde. *)
Definition encode_char (c : ascii) : string :=
  if Ascii.eqb c dquote then String backslash dq
  else if Ascii.eqb c backslash then String backslash (String backslash "")
  else if Ascii.eqb c lf then String backslash "n"
  else if Ascii.eqb c cr then String backslash "r"
  else if Ascii.eqb c tab then String backslash "t"
  else if Ascii.eqb c backspace then String backslash "b"
  else if Ascii.eqb c formfeed then String backslash "f"
  else if ((nat_of_ascii c <? 32) || (126 <? nat_of_ascii c))%nat
       then String backslash ("u00" ++ hex2 c)
  else String c "".

(** The value of a lower-case hexadecimal digit. *)
Definition hex_value (c : ascii) : nat :=
  let n := nat_of_ascii c in
  if (n <? 58)%nat then n - 48 else n - 87.

(** The reading of the first encoded character of a text, with what
    follows it: the inverse of [encode_char], used to state that the
    encoding loses nothing. *)
Definition decode_first (s : string) : option (ascii * string) :=
  match s with
  | "" => None
  | String b rest =>
      if Ascii.eqb b backslash then
        match rest with
        | String x rest' =>
            if Ascii.eqb x dquote then Some (dquote, rest')
            else if Ascii.eqb x backslash then Some (backslash, rest')
            else if Ascii.eqb x "n" then Some (lf, rest')
            else if Ascii.eqb x "r" then Some (cr, rest')
            else if Ascii.eqb x "t" then Some (tab, rest')
            else if Ascii.eqb x "b" then Some (backspace, rest')
            else if Ascii.eqb x "f" then Some (formfeed, rest')
            else if Ascii.eqb x "u" then
              match rest' with
              | String z1 (String z2 (String h (String l rest''))) =>
                  if Ascii.eqb z1 "0" && Ascii.eqb z2 "0"
                  then Some (ascii_of_nat (16 * hex_value h + hex_value l),
                             rest'')
                  else None
              | _ => None
              end
            else None
        | "" => None
        end
      else Some (b, rest)
  end.

Fixpoint encode_chars (s : string) : string :=
  match s with
  | "" => ""
  | String c s' => encode_char c ++ encode_chars s'
  end.

Definition encode_str (s : string) : string := dq ++ encode_chars s ++ dq.

Definition float_json (f : PyFloat) : string :=
  match f with
  | Finite r => r
  | PosInf => "Infinity"
  | NegInf => "-Infinity"
  | NaN => "NaN"
  end.

(** A line break followed by the indentation of a nesting level. *)
Definition newline_indent (level : nat) : string := nl ++ spaces (2 * level).

(** The encoder at a nesting level: an empty container is written on one
    line, the items of the others one per line, separated by a comma. *)
Fixpoint encode_at (level : nat) (v : JSON) : string :=
  match v with
  | JNull => "null"
  | JBool true => "true"
  | JBool false => "false"
  | JInt z => int_repr z
  | JFloat f => float_json f
  | JStr s => encode_str s
  | JArr [] => "[]"
  | JArr items =>
      "[" ++ newline_indent (S level)
          ++ join ("," ++ newline_indent (S level))
                  (map (encode_at (S level)) items)
          ++ newline_indent level ++ "]"
  | JObj [] => "{}"
  | JObj members =>
      "{" ++ newline_indent (S level)
          ++ join ("," ++ newline_indent (S level))
                  (map (fun kv : string * JSON =>
                          let (k, x) := kv in
                          encode_str k ++ ": " ++ encode_at (S level) x)
                       members)
          ++ newline_indent level ++ "}"
  end.

(** [json.dumps(v, indent=2)] *)
Definition dumps (v : JSON) : string := encode_at 0 v.

(** The text of one member of an object, as [encode_at] writes it inside
    an object that stands at [level]. *)
Definition encode_member (level : nat) (kv : string * JSON) : string :=
  encode_str (fst kv) ++ ": " ++ encode_at (S level) (snd kv).

(** *** [str(v)] and [repr(v)], used by f-strings *)

Definition float_repr (f : PyFloat) : string :=
  match f with
  | Finite r => r
  | PosInf => "inf"
  | NegInf => "-inf"
  | NaN => "nan"
  end.

(** [c in s] for a character. *)
Fixpoint has_char (c : ascii) (s : string) : bool :=
  match s with
  | "" => false
  | String c' s' => Ascii.eqb c c' || has_char c s'
  end.

(** The quote [repr] chooses: the single quote, unless the text has one
    and has no double quote. *)
Definition repr_quote (s : string) : ascii :=
  if has_char squote s && negb (has_char dquote s) then dquote else squote.

Definition repr_char (q c : ascii) : string :=
  if Ascii.eqb c q || Ascii.eqb c backslash then String backslash (String c "")
  else if Ascii.eqb c tab then String backslash "t"
  else if Ascii.eqb c lf then String backslash "n"
  else if Ascii.eqb c cr then String backslash "r"
  else if ((nat_of_ascii c <? 32) || (126 <? nat_of_ascii c))%nat
       then String backslash ("x" ++ hex2 c)
  else String c "".

Fixpoint repr_chars (q : ascii) (s : string) : string :=
  match s with
  | "" => ""
  | String c s' => repr_char q c ++ repr_chars q s'
  end.

(** [repr(s)] of a [str]. *)
Definition str_repr (s : string) : string :=
  let q := repr_quote s in
  String q (repr_chars q s ++ String q "").

(** [repr(v)] *)
Fixpoint py_repr (v : JSON) : string :=
  match v with
  | JNull => "None"
  | JBool true => "True"
  | JBool false => "False"
  | JInt z => int_repr z
  | JFloat f => float_repr f
  | JStr s => str_repr s
  | JArr items => "[" ++ join ", " (map py_repr items) ++ "]"
  | JObj members =>
      "{" ++ join ", "
               (map (fun kv : string * JSON =>
                       let (k, x) := kv in str_repr k ++ ": " ++ py_repr x)
                    members)
          ++ "}"
  end.

(** [str(v)], which is what [{v}] in an f-string inserts. *)
Definition py_str (v : JSON) : string :=
  match v with
  | JStr s => s
  | _ => py_repr v
  end.

End Json.
Import Json.

(* ================================================================== *)
(** ** Data layer: the knowledge store and its two accessors *)
(* ================================================================== *)

Module Store.

(** One namespace record: [namespace_id], [title], [description] and any
    further fields. *)
Definition Namespace : Type := dict JSON.

(** The loaded document [DATA]: the collections it holds under its
    top-level keys.  The accessors read two keys only. *)
Definition Document : Type := dict (list Namespace).

(** [DATA.get("namespaces", DATA.get("dataset", []))] *)
Definition namespaces_of (DATA : Document) : list Namespace :=
  dict_get_or DATA "namespaces" (dict_get_or DATA "dataset" []).

(** The three-line summary of one record, stripped. *)
Definition summary_of (ns : Namespace) : string :=
  strip (nl ++ "Namespace ID: "
            ++ py_str (dict_get_or ns "namespace_id" (JStr "N/A")) ++ nl
            ++ "Title: "
            ++ py_str (dict_get_or ns "title" (JStr "N/A")) ++ nl
            ++ "Description: "
            ++ py_str (dict_get_or ns "description" (JStr "N/A")) ++ nl).

Definition get_namespace_summaries (DATA : Document) : string :=
  join (nl ++ nl) (map summary_of (namespaces_of DATA)).

(** The record carries the text [namespace_id] as its [namespace_id]. *)
Definition has_id (ns : Namespace) (namespace_id : string) : Prop :=
  dict_get ns "namespace_id" = Some (JStr namespace_id).

(** [ns.get('namespace_id') == namespace_id], the right side a [str]. *)
Definition id_matches (ns : Namespace) (namespace_id : string) : bool :=
  match dict_get ns "namespace_id" with
  | Some (JStr s) => String.eqb s namespace_id
  | _ => false
  end.

(** The loop of [get_namespace_data]: return at the first hit. *)
Fixpoint scan (namespaces : list Namespace) (namespace_id : string)
  : option Namespace :=
  match namespaces with
  | [] => None
  | ns :: rest =>
      if id_matches ns namespace_id then Some ns else scan rest namespace_id
  end.

Definition get_namespace_data (DATA : Document) (namespace_id : string)
  : option Namespace :=
  scan (namespaces_of DATA) namespace_id.

End Store.
Import Store.

(* ================================================================== *)
(** ** Effects: standard output and the generation backend *)
(* ================================================================== *)

Module Effects.

(** One request to the backend: the agent that issued it, the model and
    system instruction its [GenerativeModel] was built with, and the
    prompt. *)
Record Call : Type := mkCall {
  call_agent : string;
  call_model : string;
  call_system : string;
  call_prompt : string
}.

(** What [generate_content(prompt)] followed by [.text] does: it yields a
    text, or raises an exception [e] with [str(e) = msg]. *)
Inductive Outcome : Type :=
| Text (t : string)
| Raises (msg : string).

(** The backend is an arbitrary function of the requests made so far and
    of the present request. *)
Definition Backend : Type := list Call -> Call -> Outcome.

(** The observable state: the lines printed and the requests issued,
    oldest first. *)
Record World : Type := mkWorld {
  stdout : list string;
  calls : list Call
}.

Definition M (A : Type) : Type := World -> A * World.

Definition ret {A : Type} (a : A) : M A := fun w => (a, w).

Definition bind {A B : Type} (m : M A) (k : A -> M B) : M B :=
  fun w => let (a, w') := m w in k a w'.

(** [print(line)] *)
Definition print (line : string) : M unit :=
  fun w => (tt, {| stdout := stdout w ++ [line]; calls := calls w |}).

(** The request itself: logged, and answered by the backend. *)
Definition request (B : Backend) (c : Call) : M Outcome :=
  fun w => (B (calls w) c, {| stdout := stdout w; calls := calls w ++ [c] |}).

(** A backend that gives the same outcome to every request, and the
    world before anything happened. *)
Definition always (o : Outcome) : Backend := fun _ _ => o.

Definition initial_world : World := {| stdout := []; calls := [] |}.

End Effects.
Import Effects.

Notation "x <- m ;; k" := (bind m (fun x => k))
  (at level 61, m at next level, right associativity).
Notation "m ;; k" := (bind m (fun _ => k))
  (at level 61, right associativity).

(* ================================================================== *)
(** ** Agents *)
(* ================================================================== *)

Module Agents.

(** The fields [Agent.__init__] stores; [self.model] is the backend
    configured with [model_name] and [system_instruction]. *)
Record Agent : Type := mkAgent {
  name : string;
  model_name : string;
  system_instruction : string
}.

(** The request an agent sends for a prompt. *)
Definition call_of (self : Agent) (prompt : string) : Call :=
  {| call_agent := name self;
     call_model := model_name self;
     call_system := system_instruction self;
     call_prompt := prompt |}.

(** [self.model.generate_content(prompt)] with its [.text]. *)
Definition generate_content (B : Backend) (self : Agent) (prompt : string)
  : M Outcome :=
  request B (call_of self prompt).

(** [Agent.generate]: the text, stripped; an exception is printed and
    turned into a text. *)
Definition generate (B : Backend) (self : Agent) (prompt : string) : M string :=
  o <- generate_content B self prompt ;;
  match o with
  | Text t => ret (strip t)
  | Raises e =>
      print ("Error in " ++ name self ++ ": " ++ e) ;;
      ret ("Error: " ++ e)
  end.

(** *** Agent 1 *)

Definition UserInteractionAgent : Agent :=
  {| name := "UserInteractionAgent";
     model_name := "gemini-2.0-flash-exp";
     system_instruction := "You are the user interface agent.
Your role is simple:
1. Acknowledge receipt of the user's query
2. Confirm you are forwarding it for analysis
3. Do NOT attempt to answer the query yourself

Keep your response brief and professional." |}.

(** [UserInteractionAgent.process_input] *)
Definition process_input (self : Agent) (user_query : string) : M string :=
  ret user_query.

(** *** Agent 2 *)

Definition SENTINEL : string := "NO_NAMESPACE_FOUND".

Definition QueryAnalysisAgent (DATA : Document) : Agent :=
  let namespace_info := get_namespace_summaries DATA in
  {| name := "QueryAnalysisAgent";
     model_name := "gemini-2.0-flash-exp";
     system_instruction :=
       "You are an expert semantic analysis agent specializing in query understanding and intelligent routing.

Your task:
1. Carefully analyze the USER'S QUERY to understand their intent, topic, and what information they're seeking
2. Review ALL available knowledge namespaces below
3. Identify ALL namespaces that contain relevant information for the query
4. A query may match MULTIPLE namespaces if the same information exists in different namespaces
5. If the query does NOT match ANY namespace, output exactly: " ++ dq ++ "NO_NAMESPACE_FOUND" ++ dq ++ "
6. Otherwise output ALL matching namespace_ids separated by commas

Available Knowledge Namespaces:
" ++ namespace_info ++ "

CRITICAL RULES:
- Output ALL relevant namespace_ids separated by commas (example: namespace_001,namespace_009,namespace_010)
- OR output " ++ dq ++ "NO_NAMESPACE_FOUND" ++ dq ++ " if no matches
- No explanations, no extra text, no spaces around commas
- If multiple namespaces have the same title/description and are relevant, include ALL of them
- Example outputs:
  * Single match: namespace_001
  * Multiple matches: namespace_001,namespace_009,namespace_010
  * No match: NO_NAMESPACE_FOUND" |}.

(** [QueryAnalysisAgent.analyze_query]: [None] stands for Python's
    [None], [Some ids] for the list. *)
Definition analyze_query (B : Backend) (self : Agent) (user_query : string)
  : M (option (list string)) :=
  let prompt := "User Query: " ++ user_query in
  r <- generate B self prompt ;;
  let response := strip r in
  if contains SENTINEL (upper response) then
    print "This query has no namespace" ;;
    ret None
  else
    let namespace_ids := map strip (split comma response) in
    ret (Some namespace_ids).

(** *** Agent 3 *)

Definition NamespaceResponseAgent : Agent :=
  {| name := "NamespaceResponseAgent";
     model_name := "gemini-2.0-flash-exp";
     system_instruction := "You are a knowledgeable educational response agent.

Your task:
1. You will receive namespace data and the original user query
2. The namespace contains comprehensive knowledge on a specific subject
3. Carefully analyze what the user is asking
4. Extract and synthesize relevant information from the namespace description and content
5. Provide a clear, accurate, and educational response
6. If the query asks for specific formulas, steps, or examples, provide them
7. Structure your response in a user-friendly, easy-to-understand manner

Response Guidelines:
- Be comprehensive but concise
- Use examples when helpful
- Break down complex concepts into simpler terms
- If the data covers the topic generally but not the specific question, provide the closest relevant information
- Format your response with proper structure (use line breaks for readability)
- Be educational and helpful in tone" |}.

(** The prompt of [formulate_response] for a record that was found. *)
Definition response_prompt (namespace_data : Namespace) (user_query : string)
  : string :=
  nl ++ "User Query: " ++ user_query ++ nl ++ nl
     ++ "Namespace Data:" ++ nl
     ++ dumps (JObj namespace_data) ++ nl ++ nl
     ++ "Based on the namespace data above, provide a comprehensive answer to the user's query.".

(** [NamespaceResponseAgent.formulate_response]; [not namespace_data]
    holds of [None] and of the empty dict. *)
Definition formulate_response (B : Backend) (DATA : Document) (self : Agent)
    (namespace_id user_query : string) : M string :=
  let namespace_data := get_namespace_data DATA namespace_id in
  match namespace_data with
  | None | Some [] =>
      ret ("Error: Could not find data for namespace " ++ namespace_id)
  | Some ns =>
      let prompt := response_prompt ns user_query in
      response <- generate B self prompt ;;
      ret response
  end.

End Agents.
Import Agents.

(* ================================================================== *)
(** ** Orchestrator *)
(* ================================================================== *)

Module Orchestrator.

Record MultiAgentOrchestrator : Type := mkOrchestrator {
  agent1 : Agent;
  agent2 : Agent;
  agent3 : Agent
}.

(** [MultiAgentOrchestrator.__init__] *)
Definition new (DATA : Document) : MultiAgentOrchestrator :=
  {| agent1 := UserInteractionAgent;
     agent2 := QueryAnalysisAgent DATA;
     agent3 := NamespaceResponseAgent |}.

(** [MultiAgentOrchestrator.process_query] *)
Definition process_query (B : Backend) (self : MultiAgentOrchestrator)
    (user_query : string) : M (option (list string)) :=
  forwarded_query <- process_input (agent1 self) user_query ;;
  namespace_ids <- analyze_query B (agent2 self) forwarded_query ;;
  match namespace_ids with
  | None => ret None
  | Some ids =>
      print ("Matching Namespaces: " ++ join ", " ids) ;;
      ret (Some ids)
  end.

End Orchestrator.
Import Orchestrator.

(* ================================================================== *)
(** ** Sample data *)
(* ================================================================== *)

Module Samples.

(** The record of the specification's scenarios. *)
Definition physics : Namespace :=
  [("namespace_id", JStr "ns1"); ("title", JStr "Physics");
   ("description", JStr "mechanics")].

(** The same store under each of the two accepted keys. *)
Definition physics_store : Document := [("namespaces", [physics])].

Definition physics_dataset : Document := [("dataset", [physics])].

(** A record with a payload beyond the three summary fields. *)
Definition mechanics : Namespace :=
  [("namespace_id", JStr "ns1"); ("title", JStr "Physics");
   ("description", JStr "mechanics");
   ("formulas", JArr [JStr "F = m a"])].

End Samples.
Import Samples.

(* ================================================================== *)
(** ** Start-up and the command line *)
(* ================================================================== *)

Module Cli.

(** [c.lower()] on ASCII: the letters A..Z move to a..z. *)
Definition lower_char (c : ascii) : ascii :=
  let n := nat_of_ascii c in
  if ((65 <=? n) && (n <=? 90))%nat then ascii_of_nat (n + 32) else c.

(** [s.lower()] *)
Fixpoint lower (s : string) : string :=
  match s with
  | "" => ""
  | String c s' => String (lower_char c) (lower s')
  end.

(** What the statements that may call [sys.exit] produce: the exit code
    of the process, or a value with which the program goes on. *)
Inductive Started (A : Type) : Type :=
| Exits (code : Z)
| Value (a : A).
Arguments Exits {A} code.
Arguments Value {A} a.

(** The files that can be opened: [None] stands for a path at which
    [open] raises [FileNotFoundError], [Some d] for a file whose JSON
    text loads as [d]. *)
Definition FileSystem : Type := string -> option Document.

(** [load_data(filepath)] *)
Definition load_data (fs : FileSystem) (filepath : string)
  : M (Started Document) :=
  match fs filepath with
  | Some d => ret (Value d)
  | None =>
      print ("Error: " ++ filepath
               ++ " not found. Please ensure dummy_data.json exists.") ;;
      ret (Exits 1%Z)
  end.

(** The statements run when the module is loaded: the check of the
    credential, [os.getenv('GOOGLE_API_KEY')] being [None] or a text, and
    [DATA = load_data()].  [not key] holds of [None] and of the empty
    text. *)
Definition module_init (GOOGLE_API_KEY : option string) (fs : FileSystem)
  : M (Started Document) :=
  match GOOGLE_API_KEY with
  | None | Some "" =>
      print "Warning: GOOGLE_API_KEY not found in environment variables." ;;
      print "Set it with: export GOOGLE_API_KEY='your-api-key'" ;;
      ret (Exits 1%Z)
  | Some _ => load_data fs "dummy_data.json"
  end.

(** What one call of [input("Query: ")] does: it returns the line that
    was typed, or raises [KeyboardInterrupt], or raises another exception
    [e] with [str(e) = msg] (an [EOFError] once the input has ended). *)
Inductive InputEvent : Type :=
| Line (text : string)
| Interrupt
| InputError (msg : string).

(** The input of a session: what the first, second, ... call of
    [input] does.  The prompt that [input] shows is no [print] and is
    not recorded in [stdout]; an interrupt is taken to arrive while the
    program waits for a line. *)
Definition Stdin : Type := nat -> InputEvent.

(** [query.lower() in ['exit', 'quit', 'q']] *)
Definition is_exit_word (query : string) : bool :=
  existsb (String.eqb (lower query)) ["exit"; "quit"; "q"].

(** How one turn of [while True] ends. *)
Inductive Flow : Type :=
| Break
| Continue.

(** One turn of the loop of the interactive mode, with its two
    handlers. *)
Definition turn (B : Backend) (orchestrator : MultiAgentOrchestrator)
    (event : InputEvent) : M Flow :=
  match event with
  | Line text =>
      let query := strip text in
      if is_exit_word query then
        print "Goodbye!" ;; ret Break
      else if String.eqb query "" then
        ret Continue
      else
        process_query B orchestrator query ;; ret Continue
  | Interrupt =>
      print (nl ++ "Goodbye!") ;; ret Break
  | InputError msg =>
      print ("Error: " ++ msg ++ nl) ;; ret Continue
  end.

(** The loop, run for at most [fuel] turns from the [k]-th call of
    [input]: [true] when it was left by [break], [false] when it is
    still running after [fuel] turns. *)
Fixpoint interactive_loop (fuel : nat) (B : Backend)
    (orchestrator : MultiAgentOrchestrator) (stdin : Stdin) (k : nat)
  : M bool :=
  match fuel with
  | O => ret false
  | S fuel' =>
      flow <- turn B orchestrator (stdin k) ;;
      match flow with
      | Break => ret true
      | Continue => interactive_loop fuel' B orchestrator stdin (S k)
      end
  end.

(** [main()], [argv] being [sys.argv] with the name of the script
    first: [true] when [main] returned, [false] when the loop is still
    running after [fuel] turns. *)
Definition main (fuel : nat) (B : Backend) (DATA : Document)
    (argv : list string) (stdin : Stdin) : M bool :=
  let orchestrator := new DATA in
  if (1 <? List.length argv)%nat then
    let query := join " " (tl argv) in
    process_query B orchestrator query ;;
    ret true
  else
    print (nl ++ "Multi-Agent System - Interactive Mode") ;;
    print ("Type 'exit' to quit" ++ nl) ;;
    interactive_loop fuel B orchestrator stdin 0.

(** The program run as a script: [Some code] when the process ended
    with that exit code, [None] when it is still running after [fuel]
    turns of the loop. *)
Definition program (fuel : nat) (B : Backend) (GOOGLE_API_KEY : option string)
    (fs : FileSystem) (argv : list string) (stdin : Stdin)
  : M (option Z) :=
  started <- module_init GOOGLE_API_KEY fs ;;
  match started with
  | Exits code => ret (Some code)
  | Value DATA =>
      returned <- main fuel B DATA argv stdin ;;
      ret (if returned then Some 0%Z else None)
  end.

(** *** Vocabulary of the statements about a session *)

(** The event makes the loop end. *)
Definition stops (event : InputEvent) : bool :=
  match event with
  | Line text => is_exit_word (strip text)
  | Interrupt => true
  | InputError _ => false
  end.

(** The queries among some events: the lines that are not blank, each
    stripped. *)
Fixpoint queries_of (events : list InputEvent) : list string :=
  match events with
  | [] => []
  | Line text :: rest =>
      if blank text then queries_of rest else strip text :: queries_of rest
  | _ :: rest => queries_of rest
  end.

(** The events of the calls [k], [k + 1], ..., [k + n - 1] of [input]. *)
Definition events_from (stdin : Stdin) (k n : nat) : list InputEvent :=
  map stdin (seq k n).

(** The requests that a list of queries gives rise to. *)
Definition requests_for (DATA : Document) (queries : list string) : list Call :=
  map (fun q => call_of (QueryAnalysisAgent DATA) ("User Query: " ++ q)) queries.

(** An input that has ended: every call of [input] raises [EOFError]. *)
Definition ended : Stdin := fun _ => InputError "EOF when reading a line".

(** Some lines typed one after the other, then the end of the input. *)
Definition typed (lines : list string) : Stdin :=
  fun k => match nth_error lines k with
           | Some text => Line text
           | None => InputError "EOF when reading a line"
           end.

End Cli.
Import Cli.

(* ================================================================== *)
(** ** Reading JSON text *)
(* ================================================================== *)

(** A reader of JSON text that follows the grammar of JSON and knows
    nothing of how [encode_at] lays a value out: blanks between tokens
    are skipped wherever they stand.  It is the yardstick for what a
    prompt holds: a record is in the prompt when this reader gets it back
    from the prompt. *)
Module JsonRead.

(** The blanks of JSON: space, line feed, carriage return, tab. *)
Definition is_json_space (c : ascii) : bool :=
  Ascii.eqb c " " || Ascii.eqb c lf || Ascii.eqb c cr || Ascii.eqb c tab.

Fixpoint skip_ws (s : string) : string :=
  match s with
  | "" => ""
  | String c rest => if is_json_space c then skip_ws rest else s
  end.

(** The text without its first [n] characters. *)
Fixpoint skip (n : nat) (s : string) : string :=
  match n, s with
  | O, _ => s
  | S _, "" => ""
  | S k, String _ rest => skip k rest
  end.

Definition is_digit (c : ascii) : bool :=
  ((48 <=? nat_of_ascii c) && (nat_of_ascii c <=? 57))%nat.

(** The marks that make a number a float: the point and the exponent. *)
Definition is_float_mark (c : ascii) : bool :=
  Ascii.eqb c "." || Ascii.eqb c "e" || Ascii.eqb c "E".

(** The characters of which a number is written. *)
Definition is_number_char (c : ascii) : bool :=
  is_digit c || Ascii.eqb c "-" || Ascii.eqb c "+" || is_float_mark c.

Fixpoint all_number (s : string) : bool :=
  match s with
  | "" => true
  | String c rest => is_number_char c && all_number rest
  end.

Fixpoint all_digits (s : string) : bool :=
  match s with
  | "" => true
  | String c rest => is_digit c && all_digits rest
  end.

Fixpoint has_float_mark (s : string) : bool :=
  match s with
  | "" => false
  | String c rest => is_float_mark c || has_float_mark rest
  end.

(** The longest run of number characters at the head of a text, and
    what follows it. *)
Fixpoint span_number (s : string) : string * string :=
  match s with
  | "" => ("", "")
  | String c rest =>
      if is_number_char c
      then let (token, rest') := span_number rest in (String c token, rest')
      else ("", s)
  end.

(** The integer that a run of digits, with or without a sign, writes. *)
Definition int_of_text (token : string) : option Z :=
  option_map Z.of_int (NilZero.int_of_string token).

(** The characters of a string literal after its opening quote, up to
    the closing quote, read in at most [fuel] steps. *)
Fixpoint read_chars (fuel : nat) (s : string) : option (string * string) :=
  match fuel with
  | O => None
  | S fuel' =>
      match s with
      | "" => None
      | String c rest =>
          if Ascii.eqb c dquote then Some ("", rest)
          else match decode_first s with
               | Some (x, rest') =>
                   match read_chars fuel' rest' with
                   | Some (xs, rest'') => Some (String x xs, rest'')
                   | None => None
                   end
               | None => None
               end
      end
  end.

(** A string literal after its opening quote; a step reads at least one
    character, so the length of the text is fuel enough. *)
Definition read_string (s : string) : option (string * string) :=
  read_chars (String.length s) s.

(** A value that is neither an array nor an object, at the head of a
    text with no blank before it. *)
Definition read_scalar (s : string) : option (JSON * string) :=
  match s with
  | "" => None
  | String c rest =>
      if Ascii.eqb c dquote then
        match read_string rest with
        | Some (t, rest') => Some (JStr t, rest')
        | None => None
        end
      else
        let (token, after) := span_number s in
        if String.eqb token "" then
          if startswith "true" s then Some (JBool true, skip 4 s)
          else if startswith "false" s then Some (JBool false, skip 5 s)
          else if startswith "null" s then Some (JNull, skip 4 s)
          else if startswith "NaN" s then Some (JFloat NaN, skip 3 s)
          else if startswith "Infinity" s then Some (JFloat PosInf, skip 8 s)
          else None
        else if String.eqb token "-" then
          if startswith "Infinity" after
          then Some (JFloat NegInf, skip 8 after)
          else None
        else if has_float_mark token then Some (JFloat (Finite token), after)
        else match int_of_text token with
             | Some z => Some (JInt z, after)
             | None => None
             end
  end.

(** A value, the items of an array after its opening bracket, and the
    members of an object after its opening brace; each gives what it
    read and the text that follows.  [fuel] bounds the nesting and the
    number of items read. *)
Fixpoint read_value (fuel : nat) (s : string) {struct fuel}
  : option (JSON * string) :=
  match fuel with
  | O => None
  | S fuel' =>
      match skip_ws s with
      | "" => None
      | String c rest =>
          if Ascii.eqb c "[" then
            match skip_ws rest with
            | "" => None
            | String c' rest' =>
                if Ascii.eqb c' "]" then Some (JArr [], rest')
                else match read_items fuel' rest with
                     | Some (items, after) => Some (JArr items, after)
                     | None => None
                     end
            end
          else if Ascii.eqb c "{" then
            match skip_ws rest with
            | "" => None
            | String c' rest' =>
                if Ascii.eqb c' "}" then Some (JObj [], rest')
                else match read_members fuel' rest with
                     | Some (members, after) => Some (JObj members, after)
                     | None => None
                     end
            end
          else read_scalar (String c rest)
      end
  end
with read_items (fuel : nat) (s : string) {struct fuel}
  : option (list JSON * string) :=
  match fuel with
  | O => None
  | S fuel' =>
      match read_value fuel' s with
      | None => None
      | Some (v, after) =>
          match skip_ws after with
          | "" => None
          | String c rest =>
              if Ascii.eqb c "," then
                match read_items fuel' rest with
                | Some (items, rest') => Some (v :: items, rest')
                | None => None
                end
              else if Ascii.eqb c "]" then Some ([v], rest)
              else None
          end
      end
  end
with read_members (fuel : nat) (s : string) {struct fuel}
  : option (list (string * JSON) * string) :=
  match fuel with
  | O => None
  | S fuel' =>
      match skip_ws s with
      | "" => None
      | String q rest =>
          if Ascii.eqb q dquote then
            match read_string rest with
            | None => None
            | Some (key, after_key) =>
                match skip_ws after_key with
                | "" => None
                | String colon rest' =>
                    if Ascii.eqb colon ":" then
                      match read_value fuel' rest' with
                      | None => None
                      | Some (v, after) =>
                          match skip_ws after with
                          | "" => None
                          | String c rest'' =>
                              if Ascii.eqb c "," then
                                match read_members fuel' rest'' with
                                | Some (members, rest3) =>
                                    Some ((key, v) :: members, rest3)
                                | None => None
                                end
                              else if Ascii.eqb c "}"
                                   then Some ([(key, v)], rest'')
                              else None
                          end
                      end
                    else None
                end
            end
          else None
      end
  end.

(** The fuel that reading a value back takes: one for the value, and
    one more for each item and member, at every depth. *)
Fixpoint weight (v : JSON) : nat :=
  match v with
  | JArr items => S (list_sum (map (fun x => S (weight x)) items))
  | JObj members =>
      S (list_sum (map (fun kv : string * JSON => S (weight (snd kv))) members))
  | _ => 1
  end.

(** The text of a finite float as [float.__repr__] writes one: number
    characters only, a point or an exponent among them. *)
Definition float_text (r : string) : bool :=
  all_number r && has_float_mark r.

(** The value holds Python values only: each finite float in it, at any
    depth, is written as [float.__repr__] writes floats. *)
Fixpoint proper (v : JSON) : bool :=
  match v with
  | JFloat (Finite r) => float_text r
  | JArr items => forallb proper items
  | JObj members => forallb (fun kv : string * JSON => proper (snd kv)) members
  | _ => true
  end.

(** The same sum over the items of an array and over the members of an
    object. *)
Definition weights (items : list JSON) : nat :=
  list_sum (map (fun x => S (weight x)) items).

Definition member_weights (members : list (string * JSON)) : nat :=
  list_sum (map (fun kv : string * JSON => S (weight (snd kv))) members).

(** The text of the items of an array, and of the members of an object,
    that stand at a nesting level: what [encode_at] writes between the
    brackets, the indentation at both ends apart. *)
Definition items_text (level : nat) (items : list JSON) : string :=
  join ("," ++ newline_indent level) (map (encode_at level) items).

Definition members_text (level : nat) (members : list (string * JSON))
  : string :=
  join ("," ++ newline_indent level)
       (map (fun kv : string * JSON =>
               let (k, x) := kv in encode_str k ++ ": " ++ encode_at level x)
            members).

(** The first character of the text can begin a value. *)
Definition begins_value (s : string) : bool :=
  match s with
  | "" => false
  | String h _ =>
      negb (is_json_space h) && negb (Ascii.eqb h "]") && negb (Ascii.eqb h "}")
  end.

(** The text ends a number that stands before it. *)
Definition delimited (rest : string) : bool :=
  match rest with
  | "" => true
  | String c _ => negb (is_number_char c)
  end.

(** What stands before the record in the prompt of [formulate_response]
    for a query. *)
Definition prompt_header (user_query : string) : string :=
  nl ++ "User Query: " ++ user_query ++ nl ++ nl ++ "Namespace Data:" ++ nl.

(** The record that a prompt holds for a query: the JSON object read
    after the header. *)
Definition record_of_prompt (fuel : nat) (user_query prompt : string)
  : option Namespace :=
  if startswith (prompt_header user_query) prompt then
    match read_value fuel
            (skip (String.length (prompt_header user_query)) prompt) with
    | Some (JObj members, _) => Some members
    | _ => None
    end
  else None.

(** The same with the length of the prompt as fuel, which is enough for
    whatever the prompt holds. *)
Definition record_in_prompt (user_query prompt : string) : option Namespace :=
  record_of_prompt (String.length prompt) user_query prompt.

End JsonRead.
Import JsonRead.

(* ================================================================== *)
(** ** Facts about the string primitives *)
(* ================================================================== *)

Section StringFacts.

Lemma append_nil_r (s : string) : s ++ "" = s.
Proof. induction s as [|c s IH]; simpl; [reflexivity | now rewrite IH]. Qed.

Lemma append_assoc (a b c : string) : (a ++ b) ++ c = a ++ b ++ c.
Proof. induction a as [|x a IH]; simpl; [reflexivity | now rewrite IH]. Qed.

(** *** Blank strings and the two one-sided strips *)

Lemma rstrip_empty_iff (s : string) : rstrip s = "" <-> blank s = true.
Proof.
  induction s as [|c s IH]; simpl.
  - split; reflexivity.
  - destruct (rstrip s) eqn:E.
    + destruct (is_space c); simpl.
      * split; intros _; [now apply IH | reflexivity].
      * split; discriminate.
    + split; [discriminate |].
      intros H. apply andb_true_iff in H as [_ H].
      apply IH in H. discriminate.
Qed.

(** The unfolding of [rstrip] used throughout. *)
Lemma rstrip_cons (c : ascii) (s : string) :
  rstrip (String c s) =
  if is_space c && blank s then "" else String c (rstrip s).
Proof.
  simpl. destruct (rstrip s) eqn:E.
  - assert (B : blank s = true) by now apply rstrip_empty_iff.
    rewrite B, andb_true_r. reflexivity.
  - assert (B : blank s = false).
    { destruct (blank s) eqn:B; [|reflexivity].
      apply rstrip_empty_iff in B. congruence. }
    rewrite B, andb_false_r. reflexivity.
Qed.

Lemma lstrip_blank (s : string) : blank s = true -> lstrip s = "".
Proof.
  induction s as [|c s IH]; simpl; [reflexivity |].
  intros H. apply andb_true_iff in H as [Hc Hs]. now rewrite Hc, IH.
Qed.

Lemma blank_rstrip (s : string) : blank (rstrip s) = blank s.
Proof.
  induction s as [|c s IH]; [reflexivity |].
  rewrite rstrip_cons. destruct (is_space c && blank s) eqn:E.
  - symmetry. exact E.
  - simpl. now rewrite IH.
Qed.

Lemma rstrip_idem (s : string) : rstrip (rstrip s) = rstrip s.
Proof.
  induction s as [|c s IH]; [reflexivity |].
  rewrite rstrip_cons. destruct (is_space c && blank s) eqn:E; [reflexivity |].
  rewrite rstrip_cons, blank_rstrip, E, IH. reflexivity.
Qed.

Lemma lstrip_idem (s : string) : lstrip (lstrip s) = lstrip s.
Proof.
  induction s as [|c s IH]; [reflexivity |].
  simpl. destruct (is_space c) eqn:E; [exact IH |].
  simpl. now rewrite E.
Qed.

Lemma lstrip_rstrip (s : string) : lstrip (rstrip s) = rstrip (lstrip s).
Proof.
  induction s as [|c s IH]; [reflexivity |].
  rewrite rstrip_cons. cbn [lstrip].
  destruct (is_space c) eqn:Ec; cbn [andb].
  - destruct (blank s) eqn:Eb.
    + rewrite (lstrip_blank s Eb). reflexivity.
    + cbn [lstrip]. rewrite Ec. exact IH.
  - cbn [lstrip]. rewrite Ec. rewrite rstrip_cons, Ec. reflexivity.
Qed.

Lemma strip_lstrip (s : string) : strip (lstrip s) = strip s.
Proof. unfold strip. now rewrite lstrip_idem. Qed.

Lemma strip_rstrip (s : string) : strip (rstrip s) = strip s.
Proof. unfold strip. now rewrite lstrip_rstrip, rstrip_idem. Qed.

Lemma strip_idem (s : string) : strip (strip s) = strip s.
Proof. unfold strip at 2. now rewrite strip_rstrip, strip_lstrip. Qed.

Lemma strip_blank (s : string) : blank s = true -> strip s = "".
Proof. intros H. unfold strip. now rewrite lstrip_blank. Qed.

(** *** Upper-casing keeps blanks where they are *)

Lemma is_space_upper_char (c : ascii) : is_space (upper_char c) = is_space c.
Proof. destruct c as [[] [] [] [] [] [] [] []]; reflexivity. Qed.

Lemma blank_upper (s : string) : blank (upper s) = blank s.
Proof.
  induction s as [|c s IH]; simpl; [reflexivity |].
  now rewrite is_space_upper_char, IH.
Qed.

Lemma upper_lstrip (s : string) : upper (lstrip s) = lstrip (upper s).
Proof.
  induction s as [|c s IH]; simpl; [reflexivity |].
  rewrite is_space_upper_char. destruct (is_space c); [exact IH | reflexivity].
Qed.

Lemma upper_rstrip (s : string) : upper (rstrip s) = rstrip (upper s).
Proof.
  induction s as [|c s IH]; [reflexivity |].
  cbn [upper]. rewrite !rstrip_cons, is_space_upper_char, blank_upper.
  destruct (is_space c && blank s); simpl; [reflexivity | now rewrite IH].
Qed.

Lemma upper_strip (s : string) : upper (strip s) = strip (upper s).
Proof. unfold strip. now rewrite upper_rstrip, upper_lstrip. Qed.

(** *** Splitting *)

Lemma split_nonempty (sep : ascii) (s : string) :
  exists piece rest, split sep s = piece :: rest.
Proof.
  induction s as [|c s (h & t & IH)]; simpl.
  - now exists "", [].
  - destruct (Ascii.eqb c sep).
    + now exists "", (split sep s).
    + rewrite IH. now exists (String c h), t.
Qed.

Lemma split_cons_other (sep c : ascii) (s piece : string) (rest : list string) :
  Ascii.eqb c sep = false ->
  split sep s = piece :: rest ->
  split sep (String c s) = String c piece :: rest.
Proof. intros Hc Hs. simpl. now rewrite Hc, Hs. Qed.

(** Joining the pieces back with the separator gives the text again. *)
Lemma join_split (sep : ascii) (s : string) :
  join (String sep "") (split sep s) = s.
Proof.
  induction s as [|c s IH]; [reflexivity |].
  destruct (split_nonempty sep s) as (h & t & E).
  cbn [split]. rewrite E in *.
  destruct (Ascii.eqb c sep) eqn:Ec.
  - apply Ascii.eqb_eq in Ec. subst c.
    change (join (String sep "") ("" :: h :: t))
      with (String sep (join (String sep "") (h :: t))).
    now rewrite IH.
  - destruct t as [|y l]; simpl in *; now rewrite IH.
Qed.

Lemma blank_no_comma (s : string) : blank s = true -> split comma s = [s].
Proof.
  induction s as [|c s IH]; [reflexivity |].
  simpl. intros H. apply andb_true_iff in H as [Hc Hs].
  rewrite (IH Hs).
  destruct (Ascii.eqb_spec c comma) as [-> | _]; [discriminate | reflexivity].
Qed.

Lemma space_not_comma (c : ascii) : is_space c = true -> Ascii.eqb c comma = false.
Proof.
  intros H. destruct (Ascii.eqb_spec c comma) as [-> | _];
    [discriminate | reflexivity].
Qed.

(** Stripping the text on the left touches the first piece only. *)
Lemma split_lstrip (s : string) :
  split comma (lstrip s) = map_head lstrip (split comma s).
Proof.
  induction s as [|c s IH]; [reflexivity |].
  destruct (split_nonempty comma s) as (h & t & E).
  cbn [lstrip]. destruct (is_space c) eqn:Ec.
  - rewrite (split_cons_other _ _ _ _ _ (space_not_comma c Ec) E).
    rewrite IH, E. simpl. now rewrite Ec.
  - destruct (Ascii.eqb c comma) eqn:Ek.
    + simpl. now rewrite Ek.
    + rewrite (split_cons_other _ _ _ _ _ Ek E). simpl. now rewrite Ec.
Qed.

(** Stripping the text on the right touches the last piece only. *)
Lemma split_rstrip (s : string) :
  split comma (rstrip s) = map_last rstrip (split comma s).
Proof.
  induction s as [|c s IH]; [reflexivity |].
  destruct (split_nonempty comma s) as (h & t & E).
  rewrite rstrip_cons. destruct (is_space c && blank s) eqn:Eb.
  - apply andb_true_iff in Eb as [Ec Es].
    rewrite (split_cons_other _ _ _ _ _ (space_not_comma c Ec)
               (blank_no_comma s Es)).
    cbn [map_last]. rewrite rstrip_cons, Ec, Es. reflexivity.
  - destruct (Ascii.eqb c comma) eqn:Ek.
    + cbn [split]. rewrite Ek, IH, E. reflexivity.
    + rewrite (split_cons_other _ _ _ _ _ Ek E).
      pose proof (join_split comma s) as J. rewrite E in J.
      destruct t as [|y l].
      * simpl in J. subst h.
        rewrite E in IH. cbn [map_last] in IH.
        rewrite (split_cons_other _ _ _ _ _ Ek IH).
        cbn [map_last]. rewrite rstrip_cons, Eb. reflexivity.
      * rewrite E in IH.
        change (map_last rstrip (h :: y :: l))
          with (h :: map_last rstrip (y :: l)) in IH.
        rewrite (split_cons_other _ _ _ _ _ Ek IH). reflexivity.
Qed.

Lemma map_strip_head (l : list string) :
  map strip (map_head lstrip l) = map strip l.
Proof. destruct l as [|x l]; simpl; [reflexivity | now rewrite strip_lstrip]. Qed.

Lemma map_strip_last (l : list string) :
  map strip (map_last rstrip l) = map strip l.
Proof.
  induction l as [|x l IH]; [reflexivity |].
  destruct l as [|y l]; simpl in *; [now rewrite strip_rstrip | now rewrite IH].
Qed.

(** Stripping the whole text first does not change the stripped pieces. *)
Lemma pieces_of_stripped (s : string) :
  map strip (split comma (strip s)) = map strip (split comma s).
Proof.
  unfold strip.
  now rewrite split_rstrip, map_strip_last, split_lstrip, map_strip_head.
Qed.

(** *** Substring search *)

Lemma contains_unfold (needle hay : string) :
  contains needle hay =
  startswith needle hay ||
  match hay with "" => false | String _ hay' => contains needle hay' end.
Proof. destruct hay; reflexivity. Qed.

Lemma startswith_spec (needle hay : string) :
  startswith needle hay = true <-> exists after, hay = needle ++ after.
Proof.
  revert hay. induction needle as [|a needle IH]; intros hay.
  - simpl. split; [intros _; now exists hay | reflexivity].
  - destruct hay as [|b hay]; simpl.
    + split; [discriminate | intros [after H]; discriminate].
    + rewrite andb_true_iff, IH, Ascii.eqb_eq. split.
      * intros [-> [after ->]]. now exists after.
      * intros [after H]. injection H as -> ->. split; [reflexivity |].
        now exists after.
Qed.

(** [needle in hay] decides occurrence with arbitrary surrounding text. *)
Lemma contains_spec (needle hay : string) :
  contains needle hay = true <-> occurs_in needle hay.
Proof.
  split.
  - induction hay as [|c hay IH]; rewrite contains_unfold, orb_true_iff.
    + intros [H | H]; [| discriminate].
      apply startswith_spec in H as [after H]. now exists "", after.
    + intros [H | H].
      * apply startswith_spec in H as [after H]. now exists "", after.
      * destruct (IH H) as (before & after & ->).
        now exists (String c before), after.
  - intros (before & after & ->).
    induction before as [|c before IH].
    + rewrite contains_unfold, orb_true_iff. left.
      apply startswith_spec. now exists after.
    + change (String c before ++ needle ++ after)
        with (String c (before ++ needle ++ after)).
      rewrite contains_unfold, orb_true_iff. now right.
Qed.

Lemma space_differs (a c : ascii) :
  is_space a = false -> is_space c = true -> Ascii.eqb a c = false.
Proof.
  intros Ha Hc. destruct (Ascii.eqb_spec a c) as [-> | _];
    [congruence | reflexivity].
Qed.

Lemma startswith_rstrip (needle s : string) :
  solid needle = true -> startswith needle (rstrip s) = startswith needle s.
Proof.
  revert needle. induction s as [|c s IH]; intros needle Hn; [reflexivity |].
  rewrite rstrip_cons.
  destruct needle as [|a needle]; [now destruct (is_space c && blank s) |].
  simpl in Hn. apply andb_true_iff in Hn as [Ha Hn].
  apply negb_true_iff in Ha.
  destruct (is_space c && blank s) eqn:Eb.
  - apply andb_true_iff in Eb as [Ec _]. simpl.
    now rewrite (space_differs a c Ha Ec).
  - simpl. now rewrite IH.
Qed.

Section SolidNeedle.

(** A needle that is not empty and has no blank in it. *)
Variables (a : ascii) (needle : string).
Hypothesis needle_solid : solid (String a needle) = true.

Let head_solid : is_space a = false.
Proof.
  simpl in needle_solid. apply andb_true_iff in needle_solid as [H _].
  now apply negb_true_iff in H.
Qed.

Lemma contains_blank (s : string) :
  blank s = true -> contains (String a needle) s = false.
Proof.
  induction s as [|c s IH]; [reflexivity |].
  simpl blank. intros H. apply andb_true_iff in H as [Hc Hs].
  rewrite contains_unfold, (IH Hs). simpl.
  now rewrite (space_differs a c head_solid Hc).
Qed.

Lemma contains_lstrip (s : string) :
  contains (String a needle) (lstrip s) = contains (String a needle) s.
Proof.
  induction s as [|c s IH]; [reflexivity |].
  cbn [lstrip]. destruct (is_space c) eqn:Ec; [| reflexivity].
  rewrite IH, (contains_unfold _ (String c s)). simpl.
  now rewrite (space_differs a c head_solid Ec).
Qed.

Lemma contains_rstrip (s : string) :
  contains (String a needle) (rstrip s) = contains (String a needle) s.
Proof.
  induction s as [|c s IH]; [reflexivity |].
  pose proof (startswith_rstrip (String a needle) (String c s) needle_solid) as P.
  rewrite rstrip_cons in *. destruct (is_space c && blank s) eqn:Eb.
  - symmetry. apply contains_blank. exact Eb.
  - rewrite !(contains_unfold _ (String c _)), P, IH. reflexivity.
Qed.

Lemma contains_strip (s : string) :
  contains (String a needle) (strip s) = contains (String a needle) s.
Proof. unfold strip. now rewrite contains_rstrip, contains_lstrip. Qed.

(** The sentinel test sees through stripping, before or after
    upper-casing. *)
Lemma contains_upper_strip (s : string) :
  contains (String a needle) (upper (strip s)) =
  contains (String a needle) (upper s).
Proof. now rewrite upper_strip, contains_strip. Qed.

End SolidNeedle.

End StringFacts.

(* ================================================================== *)
(** ** Running the agents *)
(* ================================================================== *)

Section Running.

Variable B : Backend.

(** [generate] on a text: the stripped text, the request logged, nothing
    printed. *)
Lemma generate_text (self : Agent) (prompt t : string) (w : World) :
  B (calls w) (call_of self prompt) = Text t ->
  generate B self prompt w =
  (strip t, {| stdout := stdout w; calls := calls w ++ [call_of self prompt] |}).
Proof.
  intros H. unfold generate, generate_content, request, bind, ret.
  now rewrite H.
Qed.

(** [generate] on an exception: the marked text, the request logged, one
    diagnostic line printed. *)
Lemma generate_raises (self : Agent) (prompt e : string) (w : World) :
  B (calls w) (call_of self prompt) = Raises e ->
  generate B self prompt w =
  ("Error: " ++ e,
   {| stdout := stdout w ++ ["Error in " ++ name self ++ ": " ++ e];
      calls := calls w ++ [call_of self prompt] |}).
Proof.
  intros H. unfold generate, generate_content, request, bind, ret, print.
  now rewrite H.
Qed.

(** Whatever the backend does, [generate] logs exactly its one request. *)
Lemma generate_calls (self : Agent) (prompt : string) (w : World) :
  calls (snd (generate B self prompt w)) =
  (calls w ++ [call_of self prompt])%list.
Proof.
  destruct (B (calls w) (call_of self prompt)) as [t | e] eqn:E.
  - now rewrite (generate_text _ _ _ _ E).
  - now rewrite (generate_raises _ _ _ _ E).
Qed.

(** [analyze_query] in terms of what [generate] returned. *)
Lemma analyze_query_run (self : Agent) (user_query : string) (w : World) :
  analyze_query B self user_query w =
  let (r, w') := generate B self ("User Query: " ++ user_query) w in
  if contains SENTINEL (upper (strip r))
  then (None, {| stdout := stdout w' ++ ["This query has no namespace"];
                 calls := calls w' |})
  else (Some (map strip (split comma (strip r))), w').
Proof.
  unfold analyze_query, bind.
  destruct (generate B self ("User Query: " ++ user_query) w) as [r w'].
  destruct (contains SENTINEL (upper (strip r))); reflexivity.
Qed.

Lemma sentinel_solid : solid SENTINEL = true.
Proof. reflexivity. Qed.

Lemma sentinel_through_strip (s : string) :
  contains SENTINEL (upper (strip s)) = contains SENTINEL (upper s).
Proof. exact (contains_upper_strip _ _ sentinel_solid s). Qed.

Lemma analyze_query_calls (self : Agent) (user_query : string) (w : World) :
  calls (snd (analyze_query B self user_query w)) =
  (calls w ++ [call_of self ("User Query: " ++ user_query)])%list.
Proof.
  rewrite analyze_query_run.
  pose proof (generate_calls self ("User Query: " ++ user_query) w) as G.
  destruct (generate B self ("User Query: " ++ user_query) w) as [r w'].
  destruct (contains SENTINEL (upper (strip r))); exact G.
Qed.

(** [process_query] in terms of what [analyze_query] returned. *)
Lemma process_query_run (self : MultiAgentOrchestrator) (user_query : string)
    (w : World) :
  process_query B self user_query w =
  let (r, w') := analyze_query B (agent2 self) user_query w in
  match r with
  | None => (None, w')
  | Some ids =>
      (Some ids,
       {| stdout := stdout w' ++ ["Matching Namespaces: " ++ join ", " ids];
          calls := calls w' |})
  end.
Proof.
  unfold process_query, process_input, bind, ret.
  destruct (analyze_query B (agent2 self) user_query w) as [[ids|] w'];
    reflexivity.
Qed.

End Running.

(* ================================================================== *)
(** ** The matcher's reading of the backend's answer *)
(* ================================================================== *)

Section Matcher.

Variables (B : Backend) (self : Agent) (user_query : string) (w : World).

Let prompt : string := "User Query: " ++ user_query.

(** What [analyze_query] returns on a text, by the sentinel test applied
    to the raw text. *)
Lemma analyze_query_text (t : string) :
  B (calls w) (call_of self prompt) = Text t ->
  fst (analyze_query B self user_query w) =
  if contains SENTINEL (upper t) then None
  else Some (map strip (split comma t)).
Proof.
  intros H. rewrite analyze_query_run. fold prompt.
  rewrite (generate_text B self prompt t w H).
  rewrite strip_idem, sentinel_through_strip, pieces_of_stripped.
  destruct (contains SENTINEL (upper t)); reflexivity.
Qed.

(** The same on an exception: the marked text is read like an answer. *)
Lemma analyze_query_raises (e : string) :
  B (calls w) (call_of self prompt) = Raises e ->
  fst (analyze_query B self user_query w) =
  if contains SENTINEL (upper ("Error: " ++ e)) then None
  else Some (map strip (split comma ("Error: " ++ e))).
Proof.
  intros H. rewrite analyze_query_run. fold prompt.
  rewrite (generate_raises B self prompt e w H).
  rewrite sentinel_through_strip, pieces_of_stripped.
  destruct (contains SENTINEL (upper ("Error: " ++ e))); reflexivity.
Qed.

End Matcher.

(** The sentinel test fails when the sentinel does not occur. *)
Lemma sentinel_absent (s : string) :
  ~ occurs_in SENTINEL s -> contains SENTINEL s = false.
Proof.
  intros Hno. destruct (contains SENTINEL s) eqn:C; [| reflexivity].
  exfalso. apply Hno. now apply contains_spec.
Qed.

(** C1: whenever the upper-cased answer of the backend has
    NO_NAMESPACE_FOUND somewhere in it, whatever stands before and after,
    [analyze_query] returns the no-match value [None]. *)
Theorem analyze_query_sentinel_anywhere
    (B : Backend) (self : Agent) (user_query : string) (w : World)
    (t before after : string) :
  B (calls w) (call_of self ("User Query: " ++ user_query)) = Text t ->
  upper t = before ++ SENTINEL ++ after ->
  fst (analyze_query B self user_query w) = None.
Proof.
  intros HB Hup. rewrite (analyze_query_text B self user_query w t HB).
  assert (C : contains SENTINEL (upper t) = true).
  { apply contains_spec. now exists before, after. }
  now rewrite C.
Qed.

Lemma analyze_query_sentinel_anywhere_witness :
  fst (analyze_query
         (always (Text "Sorry, no_Namespace_found for this (tried ns1,ns2)."))
         (QueryAnalysisAgent []) "recipe for chocolate cake" initial_world)
  = None.
Proof.
  apply (analyze_query_sentinel_anywhere _ _ _ _
           "Sorry, no_Namespace_found for this (tried ns1,ns2)."
           "SORRY, " " FOR THIS (TRIED NS1,NS2).");
    reflexivity.
Defined.

(** C2: when the upper-cased answer does not have the sentinel in it,
    [analyze_query] returns the pieces between the commas of the answer,
    each stripped, in their order, repeated ids kept and none looked up in
    the knowledge store. *)
Theorem analyze_query_splits_and_trims
    (B : Backend) (self : Agent) (user_query : string) (w : World)
    (t : string) :
  B (calls w) (call_of self ("User Query: " ++ user_query)) = Text t ->
  ~ occurs_in SENTINEL (upper t) ->
  fst (analyze_query B self user_query w) = Some (map strip (split comma t)).
Proof.
  intros HB Hno. rewrite (analyze_query_text B self user_query w t HB).
  now rewrite (sentinel_absent _ Hno).
Qed.

Lemma analyze_query_splits_and_trims_witness :
  fst (analyze_query (always (Text " namespace_001 , namespace_002 "))
         (QueryAnalysisAgent []) "What is inertia?" initial_world)
  = Some ["namespace_001"; "namespace_002"].
Proof.
  apply (analyze_query_splits_and_trims
           (always (Text " namespace_001 , namespace_002 "))
           (QueryAnalysisAgent []) "What is inertia?" initial_world
           " namespace_001 , namespace_002 ").
  - reflexivity.
  - intros H. apply contains_spec in H. vm_compute in H. discriminate H.
Defined.

(** Order and repetitions are those of the answer, and an id the store
    does not know is returned like any other. *)
Example analyze_query_keeps_order_and_repeats :
  fst (analyze_query (always (Text "namespace_009,namespace_001,namespace_009"))
         (QueryAnalysisAgent []) "q" initial_world)
  = Some ["namespace_009"; "namespace_001"; "namespace_009"].
Proof. reflexivity. Qed.

(** C10: without the sentinel the returned list is never empty; the
    empty answer gives the one-element list of the empty string, which the
    orchestrator reports as a match. *)
Theorem analyze_query_never_empty_list
    (B : Backend) (DATA : Document) (user_query : string) (w : World)
    (t : string) :
  B (calls w) (call_of (QueryAnalysisAgent DATA) ("User Query: " ++ user_query))
    = Text t ->
  ~ occurs_in SENTINEL (upper t) ->
  (exists first rest,
      fst (analyze_query B (QueryAnalysisAgent DATA) user_query w)
      = Some (first :: rest)) /\
  (t = "" ->
   fst (analyze_query B (QueryAnalysisAgent DATA) user_query w) = Some [""] /\
   fst (process_query B (new DATA) user_query w) = Some [""] /\
   stdout (snd (process_query B (new DATA) user_query w))
   = (stdout w ++ ["Matching Namespaces: "])%list).
Proof.
  intros HB Hno.
  pose proof (analyze_query_text B _ user_query w t HB) as R.
  rewrite (sentinel_absent _ Hno) in R.
  split.
  - rewrite R. destruct (split_nonempty comma t) as (h & l & E).
    rewrite E. now exists (strip h), (map strip l).
  - intros ->. split; [exact R |].
    rewrite process_query_run. cbn [agent2 new].
    rewrite analyze_query_run in *.
    rewrite (generate_text B _ _ "" w HB) in *.
    cbn in R |- *. split; reflexivity.
Qed.

Lemma analyze_query_never_empty_list_witness :
  fst (process_query (always (Text "")) (new []) "anything" initial_world)
  = Some [""].
Proof.
  refine (proj1 (proj2 (proj2
    (analyze_query_never_empty_list (always (Text "")) [] "anything"
       initial_world "" _ _) _)));
    [reflexivity | | reflexivity].
  intros H. apply contains_spec in H. vm_compute in H. discriminate H.
Defined.

(* ================================================================== *)
(** ** The knowledge store *)
(* ================================================================== *)

Section StoreFacts.

Lemma id_matches_spec (ns : Namespace) (namespace_id : string) :
  id_matches ns namespace_id = true <-> has_id ns namespace_id.
Proof.
  unfold id_matches, has_id.
  destruct (dict_get ns "namespace_id") as [[| | | |s| |]|];
    try (split; discriminate).
  rewrite String.eqb_eq. split; [now intros -> | now intros [= ->]].
Qed.

Lemma scan_none (l : list Namespace) (namespace_id : string) :
  scan l namespace_id = None <->
  Forall (fun ns => ~ has_id ns namespace_id) l.
Proof.
  induction l as [|ns l IH]; simpl.
  - split; [constructor | reflexivity].
  - destruct (id_matches ns namespace_id) eqn:E.
    + apply id_matches_spec in E. split; [discriminate |].
      intros H. inversion H; subst. contradiction.
    + rewrite IH. split.
      * intros H. constructor; [| exact H].
        intros Hid. apply id_matches_spec in Hid. congruence.
      * intros H. now inversion H.
Qed.

Lemma scan_some (l : list Namespace) (namespace_id : string) (ns : Namespace) :
  scan l namespace_id = Some ns ->
  exists earlier later,
    l = (earlier ++ ns :: later)%list /\
    Forall (fun x => ~ has_id x namespace_id) earlier /\
    has_id ns namespace_id.
Proof.
  induction l as [|x l IH]; simpl; [discriminate |].
  destruct (id_matches x namespace_id) eqn:E.
  - intros [= ->]. exists [], l. repeat split; [constructor |].
    now apply id_matches_spec.
  - intros H. destruct (IH H) as (earlier & later & -> & Hall & Hid).
    exists (x :: earlier), later. repeat split; [| exact Hid].
    constructor; [| exact Hall].
    intros Hx. apply id_matches_spec in Hx. congruence.
Qed.

(** A record that was found holds at least its [namespace_id]. *)
Lemma found_not_empty (DATA : Document) (namespace_id : string) :
  get_namespace_data DATA namespace_id <> Some [].
Proof.
  intros H. apply scan_some in H as (_ & _ & _ & _ & Hid). discriminate Hid.
Qed.

End StoreFacts.

(** C7: the lookup returns the first record, in the stored order, whose
    [namespace_id] is the given id, records with a repeated id included;
    it returns [None] when no record has that id. *)
Theorem get_namespace_data_first_match
    (DATA : Document) (namespace_id : string) :
  (exists earlier ns later,
      namespaces_of DATA = (earlier ++ ns :: later)%list /\
      Forall (fun x => ~ has_id x namespace_id) earlier /\
      has_id ns namespace_id /\
      get_namespace_data DATA namespace_id = Some ns)
  \/
  (Forall (fun x => ~ has_id x namespace_id) (namespaces_of DATA) /\
   get_namespace_data DATA namespace_id = None).
Proof.
  unfold get_namespace_data.
  destruct (scan (namespaces_of DATA) namespace_id) as [ns|] eqn:E.
  - left. destruct (scan_some _ _ _ E) as (earlier & later & H1 & H2 & H3).
    now exists earlier, ns, later.
  - right. split; [now apply scan_none | reflexivity].
Qed.

(** Two records with one id: the first stored is the one returned. *)
Example get_namespace_data_repeated_id :
  get_namespace_data
    [("namespaces",
      [[("namespace_id", JStr "ns0"); ("title", JStr "Zero")];
       [("namespace_id", JStr "ns1"); ("title", JStr "First")];
       [("namespace_id", JStr "ns1"); ("title", JStr "Second")]])]
    "ns1"
  = Some [("namespace_id", JStr "ns1"); ("title", JStr "First")].
Proof. reflexivity. Qed.

(** C6: a document that holds a collection under [namespaces] and one
    that holds the same collection under [dataset] (and has no
    [namespaces]) give the same summaries and the same lookups, hence the
    same matcher, the same orchestrator and the same synthesis. *)
Theorem namespaces_and_dataset_keys_agree
    (records : list Namespace) (doc1 doc2 : Document) :
  dict_get doc1 "namespaces" = Some records ->
  dict_get doc2 "namespaces" = None ->
  dict_get doc2 "dataset" = Some records ->
  get_namespace_summaries doc1 = get_namespace_summaries doc2 /\
  (forall namespace_id,
      get_namespace_data doc1 namespace_id = get_namespace_data doc2 namespace_id) /\
  QueryAnalysisAgent doc1 = QueryAnalysisAgent doc2 /\
  new doc1 = new doc2 /\
  (forall B self namespace_id user_query w,
      formulate_response B doc1 self namespace_id user_query w
      = formulate_response B doc2 self namespace_id user_query w).
Proof.
  intros H1 H2 H3.
  assert (E : namespaces_of doc1 = namespaces_of doc2).
  { unfold namespaces_of, dict_get_or. now rewrite H1, H2, H3. }
  assert (S : get_namespace_summaries doc1 = get_namespace_summaries doc2).
  { unfold get_namespace_summaries. now rewrite E. }
  assert (D : forall i, get_namespace_data doc1 i = get_namespace_data doc2 i).
  { intros i. unfold get_namespace_data. now rewrite E. }
  repeat split.
  - exact S.
  - exact D.
  - unfold QueryAnalysisAgent. now rewrite S.
  - unfold new, QueryAnalysisAgent. now rewrite S.
  - intros. unfold formulate_response. now rewrite D.
Qed.

Lemma namespaces_and_dataset_keys_agree_witness :
  get_namespace_summaries physics_store
  = get_namespace_summaries physics_dataset /\
  get_namespace_data physics_store "ns1"
  = get_namespace_data physics_dataset "ns1".
Proof.
  destruct (namespaces_and_dataset_keys_agree [physics]
              physics_store physics_dataset) as (S & D & _);
    [reflexivity | reflexivity | reflexivity |].
  split; [exact S | exact (D "ns1")].
Defined.

(* ================================================================== *)
(** ** Occurrence of a text inside another *)
(* ================================================================== *)

Section Occurrence.

Lemma occurs_in_refl (x : string) : occurs_in x x.
Proof. exists "", "". simpl. now rewrite append_nil_r. Qed.

Lemma occurs_in_app_l (x s a : string) : occurs_in x s -> occurs_in x (a ++ s).
Proof.
  intros (before & after & ->). exists (a ++ before), after.
  now rewrite append_assoc.
Qed.

Lemma occurs_in_app_r (x s b : string) : occurs_in x s -> occurs_in x (s ++ b).
Proof.
  intros (before & after & ->). exists before, (after ++ b).
  now rewrite !append_assoc.
Qed.

Lemma occurs_in_trans (x y z : string) :
  occurs_in x y -> occurs_in y z -> occurs_in x z.
Proof.
  intros Hxy (before & after & ->).
  now apply occurs_in_app_l, occurs_in_app_r.
Qed.

(** Every piece occurs in the joined text. *)
Lemma occurs_in_join (sep x : string) (pieces : list string) :
  In x pieces -> occurs_in x (join sep pieces).
Proof.
  induction pieces as [|p rest IH]; [intros [] |].
  intros [-> | Hin].
  - destruct rest; [apply occurs_in_refl |].
    cbn [join]. apply occurs_in_app_r, occurs_in_refl.
  - destruct rest as [|q rest]; [destruct Hin |].
    change (join sep (p :: q :: rest))
      with (p ++ sep ++ join sep (q :: rest)).
    now apply occurs_in_app_l, occurs_in_app_l, IH.
Qed.

(** Every member of an object occurs, as written one level down, in the
    text of the object. *)
Lemma member_occurs (level : nat) (members : list (string * JSON))
    (kv : string * JSON) :
  In kv members ->
  occurs_in (encode_member level kv) (encode_at level (JObj members)).
Proof.
  intros Hin. destruct members as [|m ms]; [destruct Hin |].
  cbn [encode_at].
  apply occurs_in_app_l, occurs_in_app_l, occurs_in_app_r.
  apply occurs_in_join.
  apply (in_map (fun kv : string * JSON =>
                   let (k, x) := kv in
                   encode_str k ++ ": " ++ encode_at (S level) x)) in Hin.
  destruct kv as [k x]. exact Hin.
Qed.

End Occurrence.

(* ================================================================== *)
(** ** The encoding of texts loses nothing *)
(* ================================================================== *)

Section Encoding.

Lemma decode_first_encode_char (c : ascii) (rest : string) :
  decode_first (encode_char c ++ rest) = Some (c, rest).
Proof. destruct c as [[] [] [] [] [] [] [] []]; reflexivity. Qed.

Lemma encode_chars_injective (s1 s2 : string) :
  encode_chars s1 = encode_chars s2 -> s1 = s2.
Proof.
  revert s2. induction s1 as [|c1 s1 IH]; intros [|c2 s2] H.
  - reflexivity.
  - apply (f_equal (fun x => decode_first (x ++ ""))) in H.
    cbn [encode_chars] in H.
    rewrite append_assoc, decode_first_encode_char in H. discriminate H.
  - apply (f_equal (fun x => decode_first (x ++ ""))) in H.
    cbn [encode_chars] in H.
    rewrite append_assoc, decode_first_encode_char in H. discriminate H.
  - assert (D : decode_first (encode_chars (String c1 s1))
                = decode_first (encode_chars (String c2 s2))) by now rewrite H.
    cbn [encode_chars] in D. rewrite !decode_first_encode_char in D.
    injection D as -> E. now rewrite (IH s2 E).
Qed.

Lemma length_append (a b : string) :
  String.length (a ++ b) = String.length a + String.length b.
Proof. induction a as [|c a IH]; simpl; [reflexivity | now rewrite IH]. Qed.

Lemma append_cancel_r (a b d : string) : a ++ d = b ++ d -> a = b.
Proof.
  revert b. induction a as [|x a IH]; intros [|y b] H.
  - reflexivity.
  - apply (f_equal String.length) in H. simpl in H.
    rewrite length_append in H. lia.
  - apply (f_equal String.length) in H. simpl in H.
    rewrite length_append in H. lia.
  - injection H as -> H. now rewrite (IH b H).
Qed.

(** Two texts with the same JSON string literal are the same text. *)
Lemma encode_str_injective (s1 s2 : string) :
  encode_str s1 = encode_str s2 -> s1 = s2.
Proof.
  unfold encode_str, dq. intros H. injection H as H.
  now apply encode_chars_injective, (append_cancel_r _ _ (String dquote "")).
Qed.

End Encoding.

(* ================================================================== *)
(** ** The synthesizer *)
(* ================================================================== *)

(** C5: for an id that no record of the knowledge store carries,
    [formulate_response] returns, as an ordinary text, the fixed message
    that ends with that id; it issues no request to the backend and prints
    nothing, so the answer does not depend on the backend or on the
    query. *)
Theorem formulate_response_unknown_id
    (B : Backend) (DATA : Document) (self : Agent)
    (namespace_id user_query : string) (w : World) :
  Forall (fun ns => ~ has_id ns namespace_id) (namespaces_of DATA) ->
  formulate_response B DATA self namespace_id user_query w
  = ("Error: Could not find data for namespace " ++ namespace_id, w) /\
  occurs_in namespace_id
    (fst (formulate_response B DATA self namespace_id user_query w)).
Proof.
  intros Habs.
  assert (E : formulate_response B DATA self namespace_id user_query w
              = ("Error: Could not find data for namespace " ++ namespace_id, w)).
  { unfold formulate_response, get_namespace_data.
    apply scan_none in Habs. now rewrite Habs. }
  split; [exact E |].
  rewrite E. cbn [fst]. apply occurs_in_app_l, occurs_in_refl.
Qed.

Lemma formulate_response_unknown_id_witness :
  formulate_response (always (Text "unused")) physics_store
    NamespaceResponseAgent "ns2" "What is inertia?" initial_world
  = ("Error: Could not find data for namespace ns2", initial_world).
Proof.
  refine (proj1 (formulate_response_unknown_id _ _ _ "ns2" _ _ _)).
  repeat constructor. intros H. discriminate H.
Defined.

(* ================================================================== *)
(** ** Backend failures *)
(* ================================================================== *)

(** A failure and a legitimate answer that reads as the marked text give
    [generate] the same value. *)
Lemma failure_looks_like_answer
    (B B' : Backend) (self : Agent) (prompt : string) (w : World)
    (e t : string) :
  B (calls w) (call_of self prompt) = Raises e ->
  B' (calls w) (call_of self prompt) = Text t ->
  strip t = "Error: " ++ e ->
  fst (generate B self prompt w) = fst (generate B' self prompt w).
Proof.
  intros HB HB' Ht.
  rewrite (generate_raises B self prompt e w HB).
  rewrite (generate_text B' self prompt t w HB'). cbn [fst]. now rewrite Ht.
Qed.

(** C4: when the request to the backend raises, [generate] returns the
    text "Error: " followed by the description of the failure, a [str]
    like any answer; a legitimate answer that reads as that text comes
    back as the very same value, so that no test on the returned value
    tells a failure from an answer. *)
Theorem generate_failure_is_ordinary_text :
  (forall (B : Backend) (self : Agent) (prompt : string) (w : World)
          (e : string),
      B (calls w) (call_of self prompt) = Raises e ->
      fst (generate B self prompt w) = "Error: " ++ e) /\
  (forall (B B' : Backend) (self : Agent) (prompt : string) (w : World)
          (e t : string),
      B (calls w) (call_of self prompt) = Raises e ->
      B' (calls w) (call_of self prompt) = Text t ->
      strip t = "Error: " ++ e ->
      fst (generate B self prompt w) = fst (generate B' self prompt w)) /\
  ~ (exists failed : string -> bool,
        forall (B : Backend) (self : Agent) (prompt : string) (w : World),
          failed (fst (generate B self prompt w)) = true <->
          exists e, B (calls w) (call_of self prompt) = Raises e).
Proof.
  split; [| split].
  - intros B self prompt w e HB.
    now rewrite (generate_raises B self prompt e w HB).
  - exact failure_looks_like_answer.
  - intros [failed Hf].
    pose proof (Hf (always (Raises "quota")) UserInteractionAgent ""
                  initial_world) as [_ H1].
    pose proof (Hf (always (Text "Error: quota")) UserInteractionAgent ""
                  initial_world) as [H2 _].
    assert (T : failed "Error: quota" = true).
    { apply H1. now exists "quota". }
    destruct (H2 T) as [e He]. discriminate He.
Qed.

Lemma generate_failure_is_ordinary_text_witness :
  fst (generate (always (Raises "429 quota exceeded")) NamespaceResponseAgent
         "prompt" initial_world)
  = "Error: 429 quota exceeded" /\
  fst (generate (always (Raises "429 quota exceeded")) NamespaceResponseAgent
         "prompt" initial_world)
  = fst (generate (always (Text " Error: 429 quota exceeded"))
           NamespaceResponseAgent "prompt" initial_world).
Proof.
  split.
  - apply (proj1 generate_failure_is_ordinary_text). reflexivity.
  - apply (proj1 (proj2 generate_failure_is_ordinary_text)
             _ _ _ _ _ "429 quota exceeded" " Error: 429 quota exceeded");
      reflexivity.
Defined.

(* ================================================================== *)
(** ** The orchestrator *)
(* ================================================================== *)

(** C3: [process_query] hands the query unchanged through
    [process_input], which changes nothing and calls nothing; it runs
    [analyze_query] once, on that query, and returns its result; the one
    request it adds to the log comes from the analysis agent, none from
    the response agent. *)
Theorem process_query_pipeline
    (B : Backend) (DATA : Document) (user_query : string) (w : World) :
  process_input (agent1 (new DATA)) user_query w = (user_query, w) /\
  fst (process_query B (new DATA) user_query w)
  = fst (analyze_query B (agent2 (new DATA)) user_query w) /\
  calls (snd (process_query B (new DATA) user_query w))
  = calls (snd (analyze_query B (agent2 (new DATA)) user_query w)) /\
  calls (snd (process_query B (new DATA) user_query w))
  = (calls w
       ++ [call_of (QueryAnalysisAgent DATA) ("User Query: " ++ user_query)])%list /\
  call_agent (call_of (QueryAnalysisAgent DATA) ("User Query: " ++ user_query))
  <> name (agent3 (new DATA)).
Proof.
  split; [reflexivity |].
  pose proof (analyze_query_calls B (agent2 (new DATA)) user_query w) as A.
  rewrite process_query_run.
  destruct (analyze_query B (agent2 (new DATA)) user_query w) as [[ids|] w'];
    cbn [fst snd calls] in *; repeat split; try exact A; discriminate.
Qed.

(** C9, as the code has it: one query adds to the standard output the
    diagnostic line of a failed request, if the request failed, and then
    one report line: on a match "Matching Namespaces: " followed by the
    ids joined with a comma and a space, on no match "This query has no
    namespace". *)
Theorem process_query_stdout
    (B : Backend) (self : MultiAgentOrchestrator) (user_query : string)
    (w : World) :
  stdout (snd (process_query B self user_query w))
  = (stdout w
       ++ match B (calls w)
                  (call_of (agent2 self) ("User Query: " ++ user_query)) with
          | Text _ => []
          | Raises e => [("Error in " ++ name (agent2 self) ++ ": " ++ e)%string]
          end
       ++ [match fst (process_query B self user_query w) with
           | Some ids => ("Matching Namespaces: " ++ join ", " ids)%string
           | None => "This query has no namespace"
           end])%list.
Proof.
  rewrite process_query_run, analyze_query_run.
  destruct (B (calls w) (call_of (agent2 self) ("User Query: " ++ user_query)))
    as [t | e] eqn:E.
  - rewrite (generate_text B _ _ t w E).
    destruct (contains SENTINEL (upper (strip (strip t)))); reflexivity.
  - rewrite (generate_raises B _ _ e w E).
    destruct (contains SENTINEL (upper (strip ("Error: " ++ e))));
      cbn [fst snd stdout]; now rewrite <- app_assoc.
Qed.

(** C9, as stated, fails: a request that raises with a comma in its
    message is reported as two ids, after a diagnostic line, and the two
    ids are separated by a comma and a space.  The output is neither the
    single line with the ids joined by a bare comma nor the single line
    with the ids joined by a comma and a space. *)
Lemma stdout_is_not_one_comma_joined_line :
  fst (process_query (always (Raises "503, retry later")) (new physics_store)
         "What is inertia?" initial_world)
  = Some ["Error: 503"; "retry later"] /\
  stdout (snd (process_query (always (Raises "503, retry later"))
                 (new physics_store) "What is inertia?" initial_world))
  = ["Error in QueryAnalysisAgent: 503, retry later";
     "Matching Namespaces: Error: 503, retry later"] /\
  stdout (snd (process_query (always (Raises "503, retry later"))
                 (new physics_store) "What is inertia?" initial_world))
  <> ["Matching Namespaces: " ++ join "," ["Error: 503"; "retry later"]] /\
  stdout (snd (process_query (always (Raises "503, retry later"))
                 (new physics_store) "What is inertia?" initial_world))
  <> ["Matching Namespaces: " ++ join ", " ["Error: 503"; "retry later"]].
Proof. repeat split; discriminate. Qed.

(** With an answer of two ids the report line has a comma and a space
    between them. *)
Example matching_line_joins_with_comma_space :
  process_query (always (Text "ns1,ns2")) (new physics_store) "q" initial_world
  = (Some ["ns1"; "ns2"],
     {| stdout := ["Matching Namespaces: ns1, ns2"];
        calls := [call_of (QueryAnalysisAgent physics_store) "User Query: q"] |}).
Proof. reflexivity. Qed.

(** The two scenarios of the specification. *)
Example scenario_match :
  let (r, w') := process_query (always (Text "ns1")) (new physics_store)
                   "What is inertia?" initial_world in
  r = Some ["ns1"] /\ stdout w' = ["Matching Namespaces: ns1"].
Proof. split; reflexivity. Qed.

Example scenario_no_match :
  let (r, w') := process_query (always (Text "NO_NAMESPACE_FOUND"))
                   (new physics_store) "recipe for chocolate cake"
                   initial_world in
  r = None /\ stdout w' = ["This query has no namespace"].
Proof. split; reflexivity. Qed.

(* ================================================================== *)
(** ** Further facts about the string primitives *)
(* ================================================================== *)

Section MoreStringFacts.

Lemma upper_app (a b : string) : upper (a ++ b) = upper a ++ upper b.
Proof. induction a as [|c a IH]; simpl; [reflexivity | now rewrite IH]. Qed.

(** A character that is not blank at the head of a text stays there. *)
Lemma rstrip_head (c : ascii) (s : string) :
  is_space c = false -> rstrip (String c s) = String c (rstrip s).
Proof. intros H. now rewrite rstrip_cons, H. Qed.

Lemma rstrip_app_blank (s b : string) :
  blank b = true -> rstrip (s ++ b) = rstrip s.
Proof.
  intros Hb. induction s as [|c s IH].
  - simpl. now apply rstrip_empty_iff.
  - change (String c s ++ b) with (String c (s ++ b)).
    rewrite !rstrip_cons, IH.
    assert (E : blank (s ++ b) = blank s).
    { clear IH. induction s as [|d s IHs]; simpl; [exact Hb | now rewrite IHs]. }
    now rewrite E.
Qed.

Lemma has_char_lstrip (c : ascii) (s : string) :
  has_char c s = false -> has_char c (lstrip s) = false.
Proof.
  induction s as [|d s IH]; [reflexivity |].
  cbn [lstrip]. destruct (is_space d); [| trivial].
  simpl. intros H. apply orb_false_iff in H as [_ H]. now apply IH.
Qed.

Lemma has_char_rstrip (c : ascii) (s : string) :
  has_char c s = false -> has_char c (rstrip s) = false.
Proof.
  induction s as [|d s IH]; [reflexivity |].
  rewrite rstrip_cons. simpl. intros H. apply orb_false_iff in H as [Hd Hs].
  destruct (is_space d && blank s); [reflexivity |].
  simpl. now rewrite Hd, IH.
Qed.

Lemma has_char_strip (c : ascii) (s : string) :
  has_char c s = false -> has_char c (strip s) = false.
Proof. intros H. now apply has_char_rstrip, has_char_lstrip. Qed.

(** No piece of a split holds the separator. *)
Lemma split_pieces_no_sep (sep : ascii) (s : string) :
  Forall (fun piece => has_char sep piece = false) (split sep s).
Proof.
  induction s as [|c s IH]; simpl.
  - now constructor.
  - destruct (Ascii.eqb c sep) eqn:E.
    + now constructor.
    + destruct (split sep s) as [|h t]; inversion IH; subst;
        constructor; simpl; rewrite ?(Ascii.eqb_sym sep c), ?E; auto.
Qed.

(** The pieces of a text that begins with characters other than the
    separator: the first piece begins with them. *)
Lemma split_app_head (sep : ascii) (head s : string) :
  has_char sep head = false ->
  exists piece rest,
    split sep s = piece :: rest /\
    split sep (head ++ s) = (head ++ piece) :: rest.
Proof.
  intros H. destruct (split_nonempty sep s) as (piece & rest & E).
  exists piece, rest. split; [exact E |].
  induction head as [|c head IH]; [exact E |].
  simpl in H. apply orb_false_iff in H as [Hc Hh].
  change (String c head ++ s) with (String c (head ++ s)).
  rewrite Ascii.eqb_sym in Hc.
  now rewrite (split_cons_other _ _ _ _ _ Hc (IH Hh)).
Qed.

End MoreStringFacts.

(* ================================================================== *)
(** ** More on the matcher *)
(* ================================================================== *)

(** X1: whatever the backend did, the ids that [analyze_query] returns
    are at least one, and each of them has no comma in it and no blank at
    either end. *)
Theorem analyze_query_ids_are_clean
    (B : Backend) (self : Agent) (user_query : string) (w : World)
    (ids : list string) :
  fst (analyze_query B self user_query w) = Some ids ->
  ids <> [] /\
  Forall (fun id => strip id = id /\ has_char comma id = false) ids.
Proof.
  rewrite analyze_query_run.
  destruct (generate B self ("User Query: " ++ user_query) w) as [r w'].
  destruct (contains SENTINEL (upper (strip r))); [discriminate |].
  cbn [fst]. intros [= <-]. split.
  - destruct (split_nonempty comma (strip r)) as (h & t & E).
    rewrite E. discriminate.
  - pose proof (split_pieces_no_sep comma (strip r)) as P.
    induction P as [|p l Hp _ IH]; simpl; constructor; [| exact IH].
    split; [apply strip_idem | now apply has_char_strip].
Qed.

Lemma analyze_query_ids_are_clean_witness :
  Forall (fun id => strip id = id /\ has_char comma id = false)
    ["namespace_001"; "two words"; ""].
Proof.
  refine (proj2 (analyze_query_ids_are_clean
    (always (Text "  namespace_001 ,two words , ")) (QueryAnalysisAgent [])
    "q" initial_world ["namespace_001"; "two words"; ""] _)).
  reflexivity.
Defined.

(** X2: the sentinel is found in any mix of upper and lower case, and
    ids listed beside it are dropped: [analyze_query] then returns
    [None], having sent one request and printed the one line "This query
    has no namespace". *)
Theorem analyze_query_sentinel_any_case
    (B : Backend) (self : Agent) (user_query : string) (w : World)
    (t before word after : string) :
  B (calls w) (call_of self ("User Query: " ++ user_query)) = Text t ->
  t = before ++ word ++ after ->
  upper word = SENTINEL ->
  analyze_query B self user_query w
  = (None,
     {| stdout := stdout w ++ ["This query has no namespace"];
        calls := calls w ++ [call_of self ("User Query: " ++ user_query)] |}).
Proof.
  intros HB -> Hword. rewrite analyze_query_run.
  rewrite (generate_text B self _ _ w HB).
  rewrite strip_idem, sentinel_through_strip.
  assert (C : contains SENTINEL (upper (before ++ word ++ after)) = true).
  { apply contains_spec. exists (upper before), (upper after).
    now rewrite !upper_app, Hword. }
  now rewrite C.
Qed.

Lemma analyze_query_sentinel_any_case_witness :
  analyze_query (always (Text "ns1,ns2 or No_Namespace_Found?"))
    (QueryAnalysisAgent physics_store) "q" initial_world
  = (None,
     {| stdout := ["This query has no namespace"];
        calls := [call_of (QueryAnalysisAgent physics_store) "User Query: q"] |}).
Proof.
  exact (analyze_query_sentinel_any_case
           (always (Text "ns1,ns2 or No_Namespace_Found?"))
           (QueryAnalysisAgent physics_store) "q" initial_world
           "ns1,ns2 or No_Namespace_Found?" "ns1,ns2 or " "No_Namespace_Found"
           "?" eq_refl eq_refl eq_refl).
Defined.

(** X3: a request that raises is reported as a match, never as a
    failure: unless its message has the sentinel in it, [process_query]
    returns the pieces of "Error: " followed by the message, the first of
    which begins with "Error:", and prints the diagnostic and then the
    report of a match. *)
Theorem process_query_reports_failure_as_match
    (B : Backend) (self : MultiAgentOrchestrator) (user_query : string)
    (w : World) (e : string) :
  B (calls w) (call_of (agent2 self) ("User Query: " ++ user_query)) = Raises e ->
  ~ occurs_in SENTINEL (upper e) ->
  exists first rest,
    map strip (split comma ("Error: " ++ e)) = first :: rest /\
    startswith "Error:" first = true /\
    fst (process_query B self user_query w) = Some (first :: rest) /\
    stdout (snd (process_query B self user_query w))
    = (stdout w
         ++ [("Error in " ++ name (agent2 self) ++ ": " ++ e)%string;
             ("Matching Namespaces: " ++ join ", " (first :: rest))%string])%list.
Proof.
  intros HB Hno.
  destruct (split_app_head comma "Error: " e eq_refl) as (p & rest & _ & E).
  exists (strip ("Error: " ++ p)), (map strip rest).
  assert (S : map strip (split comma ("Error: " ++ e))
              = strip ("Error: " ++ p) :: map strip rest) by now rewrite E.
  assert (C : contains SENTINEL (upper (strip ("Error: " ++ e))) = false).
  { rewrite sentinel_through_strip.
    change (contains SENTINEL (upper ("Error: " ++ e)))
      with (contains SENTINEL (upper e)).
    now apply sentinel_absent. }
  repeat split.
  - exact S.
  - change (strip ("Error: " ++ p)) with (rstrip ("Error: " ++ p)).
    cbn [append]. rewrite !rstrip_head by reflexivity. reflexivity.
  - rewrite process_query_run, analyze_query_run.
    rewrite (generate_raises B _ _ e w HB), C, pieces_of_stripped, S.
    reflexivity.
  - rewrite process_query_run, analyze_query_run.
    rewrite (generate_raises B _ _ e w HB), C, pieces_of_stripped, S.
    cbn [snd stdout]. now rewrite <- app_assoc.
Qed.

Lemma process_query_reports_failure_as_match_witness :
  fst (process_query (always (Raises "deadline exceeded")) (new physics_store)
         "What is inertia?" initial_world)
  = Some ["Error: deadline exceeded"].
Proof.
  destruct (process_query_reports_failure_as_match
              (always (Raises "deadline exceeded")) (new physics_store)
              "What is inertia?" initial_world "deadline exceeded" eq_refl)
    as (first & rest & S & _ & R & _).
  - intros H. apply contains_spec in H. vm_compute in H. discriminate H.
  - injection S as <- <-. exact R.
Defined.

(* ================================================================== *)
(** ** More on the knowledge store *)
(* ================================================================== *)

(** X4: a document that has a [namespaces] entry is read as if it had
    nothing else: a [dataset] entry beside it is ignored by both
    accessors, also when [namespaces] holds no record. *)
Theorem namespaces_key_shadows_dataset
    (doc : Document) (records : list Namespace) :
  dict_get doc "namespaces" = Some records ->
  get_namespace_summaries doc
  = get_namespace_summaries [("namespaces", records)] /\
  (forall namespace_id,
      get_namespace_data doc namespace_id
      = get_namespace_data [("namespaces", records)] namespace_id).
Proof.
  intros H.
  assert (E : namespaces_of doc = namespaces_of [("namespaces", records)]).
  { unfold namespaces_of, dict_get_or. now rewrite H. }
  unfold get_namespace_summaries, get_namespace_data. rewrite E.
  split; reflexivity.
Qed.

Lemma namespaces_key_shadows_dataset_witness :
  get_namespace_data [("dataset", [physics]); ("namespaces", [])] "ns1" = None.
Proof.
  exact (proj2 (namespaces_key_shadows_dataset
                  [("dataset", [physics]); ("namespaces", [])] [] eq_refl)
               "ns1").
Defined.

(** X5: a document with neither [namespaces] nor [dataset] is an empty
    store: the summaries are the empty text, no id is found, and the
    synthesis answers every id with the not-found message without a
    request. *)
Theorem store_without_either_key_is_empty (doc : Document) :
  dict_get doc "namespaces" = None ->
  dict_get doc "dataset" = None ->
  get_namespace_summaries doc = "" /\
  (forall namespace_id, get_namespace_data doc namespace_id = None) /\
  (forall B self namespace_id user_query w,
      formulate_response B doc self namespace_id user_query w
      = ("Error: Could not find data for namespace " ++ namespace_id, w)).
Proof.
  intros H1 H2.
  assert (E : namespaces_of doc = []).
  { unfold namespaces_of, dict_get_or. now rewrite H1, H2. }
  unfold formulate_response, get_namespace_summaries, get_namespace_data.
  rewrite E. repeat split.
Qed.

Lemma store_without_either_key_is_empty_witness :
  get_namespace_summaries [("Namespaces", [physics])] = "".
Proof.
  exact (proj1 (store_without_either_key_is_empty
                  [("Namespaces", [physics])] eq_refl eq_refl)).
Defined.

Lemma blank_app (a b : string) : blank (a ++ b) = blank a && blank b.
Proof.
  induction a as [|c a IH]; simpl; [reflexivity |].
  now rewrite IH, andb_assoc.
Qed.

(** A text that is followed by something not blank is kept whole. *)
Lemma rstrip_app_kept (a s : string) :
  blank s = false -> rstrip (a ++ s) = a ++ rstrip s.
Proof.
  intros H. induction a as [|c a IH]; [reflexivity |].
  change (String c a ++ s) with (String c (a ++ s)).
  rewrite rstrip_cons, blank_app, H, !andb_false_r, IH. reflexivity.
Qed.

(** X6: the summary of a record is the three labelled lines with the id
    and the title in full; of the description only the blanks at its end
    are lost (and the space after the colon when the description is
    blank). *)
Theorem summary_of_shape (ns : Namespace) :
  summary_of ns
  = "Namespace ID: " ++ py_str (dict_get_or ns "namespace_id" (JStr "N/A"))
      ++ nl ++ "Title: " ++ py_str (dict_get_or ns "title" (JStr "N/A"))
      ++ nl ++ "Description:"
      ++ rstrip (" " ++ py_str (dict_get_or ns "description" (JStr "N/A"))).
Proof.
  unfold summary_of.
  set (i := py_str (dict_get_or ns "namespace_id" (JStr "N/A"))).
  set (t := py_str (dict_get_or ns "title" (JStr "N/A"))).
  set (d := py_str (dict_get_or ns "description" (JStr "N/A"))).
  change (strip (nl ++ "Namespace ID: " ++ i ++ nl ++ "Title: " ++ t ++ nl
                    ++ "Description: " ++ d ++ nl))
    with (rstrip ("Namespace ID: " ++ i ++ nl ++ "Title: " ++ t ++ nl
                    ++ "Description" ++ ":" ++ (" " ++ d) ++ nl)).
  set (tail := ":" ++ (" " ++ d) ++ nl).
  assert (Htail : blank tail = false) by reflexivity.
  rewrite !rstrip_app_kept
    by (rewrite ?blank_app, Htail, ?andb_false_r; reflexivity).
  unfold tail.
  change (":" ++ (" " ++ d) ++ nl) with (String ":" ((" " ++ d) ++ nl)).
  rewrite rstrip_head by reflexivity.
  rewrite rstrip_app_blank by reflexivity.
  reflexivity.
Qed.

(** X7: when one record only carries an id, the lookup returns that
    record wherever it stands in the collection. *)
Theorem get_namespace_data_finds_unique
    (DATA : Document) (namespace_id : string) (ns : Namespace) :
  In ns (namespaces_of DATA) ->
  has_id ns namespace_id ->
  (forall other,
      In other (namespaces_of DATA) -> has_id other namespace_id -> other = ns) ->
  get_namespace_data DATA namespace_id = Some ns.
Proof.
  intros Hin Hid Huniq. unfold get_namespace_data.
  destruct (scan (namespaces_of DATA) namespace_id) as [found|] eqn:E.
  - destruct (scan_some _ _ _ E) as (earlier & later & Hsplit & _ & Hfound).
    f_equal. apply Huniq; [| exact Hfound].
    rewrite Hsplit. apply in_or_app. right. now left.
  - apply scan_none in E. rewrite Forall_forall in E.
    now destruct (E ns Hin).
Qed.

Lemma get_namespace_data_finds_unique_witness :
  get_namespace_data
    [("dataset", [[("title", JStr "no id")]; physics])] "ns1"
  = Some physics.
Proof.
  apply get_namespace_data_finds_unique.
  - simpl. auto.
  - reflexivity.
  - intros other [<- | [<- | []]] H; [discriminate H | reflexivity].
Defined.

(* ================================================================== *)
(** ** More on the synthesizer and on what the matcher is shown *)
(* ================================================================== *)

(** X8: for an id that is found, [formulate_response] is one request
    with the prompt of the record, and when the backend answers it
    returns the answer stripped and prints nothing: the not-found branch
    is taken for no record that the lookup returns. *)
Theorem formulate_response_found
    (B : Backend) (DATA : Document) (self : Agent)
    (namespace_id user_query : string) (w : World) (ns : Namespace)
    (t : string) :
  get_namespace_data DATA namespace_id = Some ns ->
  B (calls w) (call_of self (response_prompt ns user_query)) = Text t ->
  formulate_response B DATA self namespace_id user_query w
  = (strip t,
     {| stdout := stdout w;
        calls := calls w ++ [call_of self (response_prompt ns user_query)] |}).
Proof.
  intros Hfound HB. unfold formulate_response. rewrite Hfound.
  destruct ns as [|m ms]; [now apply found_not_empty in Hfound |].
  unfold bind, ret.
  now rewrite (generate_text B self _ t w HB).
Qed.

Lemma formulate_response_found_witness :
  fst (formulate_response (always (Text " Inertia is resistance to change. "))
         physics_dataset NamespaceResponseAgent "ns1" "What is inertia?"
         initial_world)
  = "Inertia is resistance to change.".
Proof.
  exact (f_equal fst
           (formulate_response_found
              (always (Text " Inertia is resistance to change. "))
              physics_dataset NamespaceResponseAgent "ns1" "What is inertia?"
              initial_world physics " Inertia is resistance to change. "
              eq_refl eq_refl)).
Defined.

(** X9: the one request that [process_query] sends carries, in its
    system instruction, the summary of every record of the store, and the
    query as its prompt. *)
Theorem matcher_request_shows_every_summary
    (B : Backend) (DATA : Document) (user_query : string) (w : World)
    (ns : Namespace) :
  In ns (namespaces_of DATA) ->
  exists c,
    calls (snd (process_query B (new DATA) user_query w)) = (calls w ++ [c])%list /\
    call_prompt c = "User Query: " ++ user_query /\
    occurs_in (summary_of ns) (call_system c).
Proof.
  intros Hin.
  exists (call_of (QueryAnalysisAgent DATA) ("User Query: " ++ user_query)).
  repeat split.
  - pose proof (analyze_query_calls B (agent2 (new DATA)) user_query w) as A.
    rewrite process_query_run.
    now destruct (analyze_query B (agent2 (new DATA)) user_query w) as [[ids|] w'].
  - cbn [call_system call_of system_instruction QueryAnalysisAgent].
    do 5 apply occurs_in_app_l.
    apply occurs_in_app_r. unfold get_namespace_summaries.
    now apply occurs_in_join, in_map.
Qed.

Lemma matcher_request_shows_every_summary_witness :
  exists c,
    calls (snd (process_query (always (Text "ns1")) (new physics_store)
                  "What is inertia?" initial_world)) = [c] /\
    call_prompt c = "User Query: What is inertia?" /\
    occurs_in (summary_of physics) (call_system c).
Proof.
  exact (matcher_request_shows_every_summary (always (Text "ns1"))
           physics_store "What is inertia?" initial_world physics
           (or_introl eq_refl)).
Defined.

(* ================================================================== *)
(** ** The interactive loop *)
(* ================================================================== *)

Section Session.

Variables (B : Backend) (DATA : Document).

Lemma blank_lstrip (s : string) : blank (lstrip s) = blank s.
Proof.
  induction s as [|c s IH]; [reflexivity |].
  cbn [lstrip]. destruct (is_space c) eqn:E; [| reflexivity].
  simpl. now rewrite E, IH.
Qed.

(** [not query] after stripping: the line was blank. *)
Lemma strip_is_empty (s : string) : String.eqb (strip s) "" = blank s.
Proof.
  unfold strip. rewrite <- blank_lstrip.
  destruct (blank (lstrip s)) eqn:E.
  - apply rstrip_empty_iff in E. now rewrite E.
  - apply String.eqb_neq. intros H. apply rstrip_empty_iff in H. congruence.
Qed.

Lemma queries_of_cons (event : InputEvent) (rest : list InputEvent) :
  queries_of (event :: rest) = (queries_of [event] ++ queries_of rest)%list.
Proof.
  destruct event as [text | | msg]; cbn [queries_of]; try reflexivity.
  now destruct (blank text).
Qed.

(** A turn that does not end the loop: it sends the request of its
    query, if the line holds one. *)
Lemma turn_continues (event : InputEvent) (w : World) :
  stops event = false ->
  fst (turn B (new DATA) event w) = Continue /\
  calls (snd (turn B (new DATA) event w))
  = (calls w ++ requests_for DATA (queries_of [event]))%list.
Proof.
  destruct event as [text | | msg]; simpl stops; intros H; try discriminate.
  - unfold turn. rewrite H, strip_is_empty. cbn [queries_of].
    destruct (blank text).
    + cbn. now rewrite app_nil_r.
    + unfold bind, ret.
      pose proof (analyze_query_calls B (agent2 (new DATA)) (strip text) w) as A.
      rewrite process_query_run.
      destruct (analyze_query B (agent2 (new DATA)) (strip text) w)
        as [[ids|] w']; cbn in *; now rewrite A.
  - cbn. now rewrite app_nil_r.
Qed.

(** A turn that ends the loop: it prints the farewell and sends
    nothing. *)
Lemma turn_breaks (event : InputEvent) (w : World) :
  stops event = true ->
  turn B (new DATA) event w
  = (Break,
     {| stdout := stdout w
                    ++ [match event with
                        | Interrupt => nl ++ "Goodbye!"
                        | _ => "Goodbye!"
                        end];
        calls := calls w |}).
Proof.
  destruct event as [text | | msg]; simpl stops; intros H; try discriminate.
  - unfold turn. now rewrite H.
  - reflexivity.
Qed.

(** [n] turns none of which ends the loop: the loop is still running,
    it goes on from the next call of [input], and it has sent the
    requests of the queries read. *)
Lemma loop_runs (stdin : Stdin) (n : nat) :
  forall (k : nat) (w : World),
    (forall j, j < n -> stops (stdin (k + j)) = false) ->
    fst (interactive_loop n B (new DATA) stdin k w) = false /\
    calls (snd (interactive_loop n B (new DATA) stdin k w))
    = (calls w ++ requests_for DATA (queries_of (events_from stdin k n)))%list /\
    forall fuel,
      interactive_loop (n + fuel) B (new DATA) stdin k w
      = interactive_loop fuel B (new DATA) stdin (k + n)
          (snd (interactive_loop n B (new DATA) stdin k w)).
Proof.
  induction n as [|n IH]; intros k w Hrun.
  - cbn. rewrite app_nil_r, Nat.add_0_r. repeat split.
  - assert (H0 : stops (stdin k) = false).
    { rewrite <- (Nat.add_0_r k). apply Hrun. lia. }
    destruct (turn_continues (stdin k) w H0) as [Hflow Hcalls].
    assert (Hrest : forall j, j < n -> stops (stdin (S k + j)) = false).
    { intros j Hj. replace (S k + j) with (k + S j) by lia. apply Hrun. lia. }
    destruct (turn B (new DATA) (stdin k) w) as [flow w1] eqn:T.
    cbn [fst snd] in Hflow, Hcalls. subst flow.
    assert (Estep : forall m,
               interactive_loop (S m) B (new DATA) stdin k w
               = interactive_loop m B (new DATA) stdin (S k) w1).
    { intros m. cbn [interactive_loop]. unfold bind. now rewrite T. }
    destruct (IH (S k) w1 Hrest) as (Hf & Hc & Hgo).
    change (S n + ?f) with (S (n + f)). rewrite !Estep.
    repeat split.
    + exact Hf.
    + rewrite Hc, Hcalls.
      change (events_from stdin k (S n))
        with (stdin k :: events_from stdin (S k) n).
      rewrite (queries_of_cons (stdin k) (events_from stdin (S k) n)).
      unfold requests_for.
      now rewrite map_app, app_assoc.
    + intros fuel. change (S n + fuel) with (S (n + fuel)).
      rewrite Estep, Hgo. now replace (k + S n) with (S k + n) by lia.
Qed.

(** The loop reads no more than [m] events in [m] turns. *)
Lemma loop_reads_prefix (stdin stdin' : Stdin) (m : nat) :
  forall (k : nat) (w : World),
    (forall j, j < m -> stdin' (k + j) = stdin (k + j)) ->
    interactive_loop m B (new DATA) stdin' k w
    = interactive_loop m B (new DATA) stdin k w.
Proof.
  induction m as [|m IH]; intros k w Hsame; [reflexivity |].
  cbn [interactive_loop]. unfold bind.
  assert (E : stdin' k = stdin k).
  { rewrite <- (Nat.add_0_r k). apply Hsame. lia. }
  rewrite E. destruct (turn B (new DATA) (stdin k) w) as [[|] w1];
    [reflexivity |].
  apply IH. intros j Hj. replace (S k + j) with (k + S j) by lia.
  apply Hsame. lia.
Qed.

End Session.

Section InteractiveMode.

Variables (B : Backend) (DATA : Document) (argv : list string).
Hypothesis no_argument : List.length argv <= 1.

(** Without an argument [main] prints the two lines of the banner and
    enters the loop at the first call of [input]. *)
Lemma main_interactive (fuel : nat) (stdin : Stdin) (w : World) :
  main fuel B DATA argv stdin w
  = interactive_loop fuel B (new DATA) stdin 0
      {| stdout := stdout w ++ [nl ++ "Multi-Agent System - Interactive Mode";
                                "Type 'exit' to quit" ++ nl];
         calls := calls w |}.
Proof.
  unfold main. assert (E : (1 <? List.length argv)%nat = false)
    by (apply Nat.ltb_ge; exact no_argument).
  rewrite E. unfold bind, print. cbn [stdout calls].
  now rewrite <- app_assoc.
Qed.

(** The loop left at the first event that stops it. *)
Lemma main_leaves (fuel n : nat) (stdin : Stdin) (w : World) :
  (forall j, j < n -> stops (stdin j) = false) ->
  stops (stdin n) = true ->
  n < fuel ->
  exists before,
    calls before = (calls w
                      ++ requests_for DATA (queries_of (events_from stdin 0 n)))%list /\
    main fuel B DATA argv stdin w
    = (true,
       {| stdout := stdout before
                      ++ [match stdin n with
                          | Interrupt => nl ++ "Goodbye!"
                          | _ => "Goodbye!"
                          end];
          calls := calls before |}).
Proof.
  intros Hrun Hstop Hfuel. rewrite main_interactive.
  set (w0 := {| stdout := _; calls := calls w |}).
  destruct (loop_runs B DATA stdin n 0 w0 Hrun) as (_ & Hcalls & Hgo).
  exists (snd (interactive_loop n B (new DATA) stdin 0 w0)).
  split; [exact Hcalls |].
  replace fuel with (n + S (fuel - S n)) by lia.
  rewrite Hgo. cbn [interactive_loop Nat.add]. unfold bind.
  now rewrite (turn_breaks B DATA (stdin n) _ Hstop).
Qed.

End InteractiveMode.

(** X10: in the interactive mode, when no line is an exit word and no
    interrupt comes, the loop does not end, however many turns it is
    given; so it is when the input has ended, each call of [input] then
    raising an exception that the loop catches. *)
Theorem interactive_mode_never_ends_without_exit
    (B : Backend) (DATA : Document) (argv : list string) (stdin : Stdin) :
  List.length argv <= 1 ->
  (forall j, stops (stdin j) = false) ->
  forall (fuel : nat) (w : World),
    fst (main fuel B DATA argv stdin w) = false.
Proof.
  intros Hargv Hrun fuel w. rewrite (main_interactive B DATA argv Hargv).
  now apply (loop_runs B DATA stdin fuel 0).
Qed.

Lemma interactive_mode_never_ends_without_exit_witness :
  fst (main 1000 (always (Text "ns1")) physics_store ["main.py"] ended
         initial_world) = false.
Proof.
  apply interactive_mode_never_ends_without_exit; [simpl; lia | reflexivity].
Defined.

(** X11: in the interactive mode the loop ends at the first line that
    is "exit", "quit" or "q" in any case and with any blanks around it,
    or at the first interrupt: [main] then returns, whatever number of
    turns above that it is given, the farewell is the last line printed,
    and nothing that is typed afterwards is read. *)
Theorem interactive_mode_leaves_at_first_exit
    (B : Backend) (DATA : Document) (argv : list string) (stdin : Stdin)
    (n fuel : nat) (w : World) :
  List.length argv <= 1 ->
  (forall j, j < n -> stops (stdin j) = false) ->
  stops (stdin n) = true ->
  n < fuel ->
  fst (main fuel B DATA argv stdin w) = true /\
  main fuel B DATA argv stdin w = main (S n) B DATA argv stdin w /\
  (exists earlier,
      stdout (snd (main fuel B DATA argv stdin w))
      = (earlier ++ [match stdin n with
                     | Interrupt => (nl ++ "Goodbye!")%string
                     | _ => "Goodbye!"
                     end])%list) /\
  (forall stdin' : Stdin,
      (forall j, j <= n -> stdin' j = stdin j) ->
      main fuel B DATA argv stdin' w = main fuel B DATA argv stdin w).
Proof.
  intros Hargv Hrun Hstop Hfuel.
  destruct (main_leaves B DATA argv Hargv fuel n stdin w Hrun Hstop Hfuel)
    as (before & _ & E).
  assert (Hleave : forall (input : Stdin) (f : nat),
             (forall j, j < n -> stops (input j) = false) ->
             stops (input n) = true -> n < f ->
             main f B DATA argv input w = main (S n) B DATA argv input w).
  { intros input f Hr Hs Hf.
    rewrite !(main_interactive B DATA argv Hargv).
    set (w0 := {| stdout := _; calls := calls w |}).
    destruct (loop_runs B DATA input n 0 w0 Hr) as (_ & _ & Hgo).
    replace f with (n + S (f - S n)) by lia.
    replace (S n) with (n + 1) at 2 by lia.
    rewrite !Hgo. cbn [interactive_loop Nat.add]. unfold bind.
    now rewrite (turn_breaks B DATA (input n) _ Hs). }
  repeat split.
  - now rewrite E.
  - now apply Hleave.
  - exists (stdout before). now rewrite E.
  - intros stdin' Hsame.
    assert (Hrun' : forall j, j < n -> stops (stdin' j) = false).
    { intros j Hj. rewrite Hsame by lia. now apply Hrun. }
    assert (Hstop' : stops (stdin' n) = true) by now rewrite Hsame.
    rewrite (Hleave stdin fuel Hrun Hstop Hfuel).
    rewrite (Hleave stdin' fuel Hrun' Hstop' Hfuel).
    rewrite !(main_interactive B DATA argv Hargv).
    apply loop_reads_prefix. intros j Hj. apply Hsame. simpl. lia.
Qed.

Lemma interactive_mode_leaves_at_first_exit_witness :
  main 50 (always (Text "ns1")) physics_store ["main.py"]
    (typed ["What is inertia?"; "   "; "  QuIt "; "never read"]) initial_world
  = main 50 (always (Text "ns1")) physics_store ["main.py"]
      (typed ["What is inertia?"; "   "; "  QuIt "]) initial_world.
Proof.
  refine (proj2 (proj2 (proj2
    (interactive_mode_leaves_at_first_exit (always (Text "ns1")) physics_store
       ["main.py"] (typed ["What is inertia?"; "   "; "  QuIt "]) 2 50
       initial_world _ _ _ _))) _ _).
  - simpl. lia.
  - intros [|[|j]] Hj; [reflexivity | reflexivity | lia].
  - reflexivity.
  - lia.
  - intros [|[|[|j]]] Hj; [reflexivity | reflexivity | reflexivity | lia].
Defined.

(** X12: a session of the interactive mode that ends sends one request
    for each line read before the exit that is not blank, in the order of
    the lines, with the line stripped as the query; a blank line sends
    none, nor do the exit word, an interrupt or a failed [input]. *)
Theorem interactive_mode_requests
    (B : Backend) (DATA : Document) (argv : list string) (stdin : Stdin)
    (n fuel : nat) (w : World) :
  List.length argv <= 1 ->
  (forall j, j < n -> stops (stdin j) = false) ->
  stops (stdin n) = true ->
  n < fuel ->
  calls (snd (main fuel B DATA argv stdin w))
  = (calls w ++ requests_for DATA (queries_of (events_from stdin 0 n)))%list.
Proof.
  intros Hargv Hrun Hstop Hfuel.
  destruct (main_leaves B DATA argv Hargv fuel n stdin w Hrun Hstop Hfuel)
    as (before & Hcalls & E).
  now rewrite E.
Qed.

Lemma interactive_mode_requests_witness :
  calls (snd (main 50 (always (Text "ns1")) physics_store ["main.py"]
                (typed ["  What is inertia? "; ""; "exit"]) initial_world))
  = [call_of (QueryAnalysisAgent physics_store) "User Query: What is inertia?"].
Proof.
  refine (interactive_mode_requests (always (Text "ns1")) physics_store
            ["main.py"] (typed ["  What is inertia? "; ""; "exit"]) 2 50
            initial_world _ _ _ _).
  - simpl. lia.
  - intros [|[|j]] Hj; [reflexivity | reflexivity | lia].
  - reflexivity.
  - lia.
Defined.

(* ================================================================== *)
(** ** The batch mode and the start of the program *)
(* ================================================================== *)

(** X13: with arguments on the command line, [main] joins them with
    single spaces into one query and processes it once: it returns
    without a turn of the loop, reads no input, prints no banner and
    sends exactly one request, also when the query so made is blank. *)
Theorem batch_mode_sends_one_request
    (B : Backend) (DATA : Document) (script : string) (args : list string)
    (fuel : nat) (stdin : Stdin) (w : World) :
  args <> [] ->
  main fuel B DATA (script :: args) stdin w
  = (true, snd (process_query B (new DATA) (join " " args) w)) /\
  calls (snd (main fuel B DATA (script :: args) stdin w))
  = (calls w
       ++ [call_of (QueryAnalysisAgent DATA) ("User Query: " ++ join " " args)])%list.
Proof.
  intros Hargs. destruct args as [|a rest]; [contradiction |].
  assert (E : main fuel B DATA (script :: a :: rest) stdin w
              = (true, snd (process_query B (new DATA) (join " " (a :: rest)) w))).
  { unfold main. cbn [List.length Nat.ltb Nat.leb tl]. unfold bind, ret.
    now destruct (process_query B (new DATA) (join " " (a :: rest)) w). }
  split; [exact E |].
  rewrite E. cbn [snd].
  pose proof (analyze_query_calls B (agent2 (new DATA)) (join " " (a :: rest)) w)
    as A.
  rewrite process_query_run.
  now destruct (analyze_query B (agent2 (new DATA)) (join " " (a :: rest)) w)
    as [[ids|] w'].
Qed.

Lemma batch_mode_sends_one_request_witness :
  calls (snd (main 0 (always (Text "ns1")) physics_store
                ["main.py"; "What"; "is"; ""; "inertia?"] ended initial_world))
  = [call_of (QueryAnalysisAgent physics_store)
       "User Query: What is  inertia?"].
Proof.
  refine (proj2 (batch_mode_sends_one_request (always (Text "ns1"))
                   physics_store "main.py" ["What"; "is"; ""; "inertia?"]
                   0 ended initial_world _)).
  discriminate.
Defined.

(** X14: when the credential is not set or is the empty text, or when
    the file of the knowledge store is not there, the program ends with
    exit code 1 before any request is sent and before any input is read;
    the credential is checked first, so that without it the file is not
    looked for. *)
Theorem program_exits_before_any_request
    (B : Backend) (GOOGLE_API_KEY : option string) (fs : FileSystem)
    (argv : list string) (stdin : Stdin) (fuel : nat) (w : World) :
  GOOGLE_API_KEY = None \/ GOOGLE_API_KEY = Some ""
  \/ fs "dummy_data.json" = None ->
  program fuel B GOOGLE_API_KEY fs argv stdin w
  = (Some 1%Z,
     {| stdout :=
          stdout w
            ++ match GOOGLE_API_KEY with
               | None | Some "" =>
                   ["Warning: GOOGLE_API_KEY not found in environment variables.";
                    "Set it with: export GOOGLE_API_KEY='your-api-key'"]
               | Some _ =>
                   ["Error: dummy_data.json not found. Please ensure dummy_data.json exists."]
               end;
        calls := calls w |}).
Proof.
  intros H. unfold program, module_init, load_data, bind, print, ret.
  destruct GOOGLE_API_KEY as [[|c k]|].
  - cbn. now rewrite <- app_assoc.
  - destruct H as [H | [H | H]]; try discriminate. now rewrite H.
  - cbn. now rewrite <- app_assoc.
Qed.

Lemma program_exits_before_any_request_witness :
  program 10 (always (Text "ns1")) (Some "") (fun _ => Some physics_store)
    ["main.py"; "What is inertia?"] ended initial_world
  = (Some 1%Z,
     {| stdout :=
          ["Warning: GOOGLE_API_KEY not found in environment variables.";
           "Set it with: export GOOGLE_API_KEY='your-api-key'"];
        calls := [] |}).
Proof.
  exact (program_exits_before_any_request (always (Text "ns1")) (Some "")
           (fun _ => Some physics_store) ["main.py"; "What is inertia?"]
           ended 10 initial_world (or_intror (or_introl eq_refl))).
Defined.

(* ================================================================== *)
(** ** Reading back what [json.dumps] wrote *)
(* ================================================================== *)

Section ReadingTokens.

Lemma number_char_is_plain (c : ascii) :
  is_number_char c = true ->
  is_json_space c = false /\ Ascii.eqb c "[" = false /\
  Ascii.eqb c "{" = false /\ Ascii.eqb c "]" = false /\
  Ascii.eqb c "}" = false /\ Ascii.eqb c dquote = false.
Proof.
  destruct c as [[] [] [] [] [] [] [] []]; intros H;
    solve [discriminate H | repeat split; reflexivity].
Qed.

Lemma digit_is_no_mark (c : ascii) :
  is_digit c = true -> is_float_mark c = false.
Proof.
  destruct c as [[] [] [] [] [] [] [] []]; intros H;
    solve [discriminate H | reflexivity].
Qed.

Lemma skip_ws_spaces (k : nat) (s : string) :
  skip_ws (spaces k ++ s) = skip_ws s.
Proof. induction k as [|k IH]; [reflexivity | exact IH]. Qed.

(** The line break and the indentation before an item are skipped. *)
Lemma skip_ws_indent (level : nat) (s : string) :
  skip_ws (newline_indent level ++ s) = skip_ws s.
Proof.
  unfold newline_indent. rewrite append_assoc.
  change (skip_ws (nl ++ spaces (2 * level) ++ s))
    with (skip_ws (spaces (2 * level) ++ s)).
  apply skip_ws_spaces.
Qed.

Lemma span_number_app (token rest : string) :
  all_number token = true ->
  delimited rest = true ->
  span_number (token ++ rest) = (token, rest).
Proof.
  intros Ht Hr. induction token as [|c token IH].
  - destruct rest as [|c r]; [reflexivity |].
    simpl in *. apply negb_true_iff in Hr. now rewrite Hr.
  - simpl in *. apply andb_true_iff in Ht as [Hc Ht].
    now rewrite Hc, (IH Ht).
Qed.

(** *** Integers *)

Lemma uint_text_digits (d : Decimal.uint) :
  all_digits (NilEmpty.string_of_uint d) = true.
Proof. induction d; simpl; auto. Qed.

Lemma uint_text_zero_digits (d : Decimal.uint) :
  all_digits (NilZero.string_of_uint d) = true /\
  NilZero.string_of_uint d <> "".
Proof.
  destruct d; simpl; split; try reflexivity; try discriminate;
    apply uint_text_digits.
Qed.

Lemma digits_are_number (s : string) :
  all_digits s = true -> all_number s = true /\ has_float_mark s = false.
Proof.
  induction s as [|c s IH]; simpl; [now split |].
  intros H. apply andb_true_iff in H as [Hc Hs].
  destruct (IH Hs) as [Hn Hm].
  unfold is_number_char. now rewrite Hc, (digit_is_no_mark c Hc), Hn, Hm.
Qed.

(** The text of an integer: digits behind an optional sign. *)
Lemma int_repr_shape (z : Z) :
  all_number (int_repr z) = true /\
  has_float_mark (int_repr z) = false /\
  int_repr z <> "" /\ int_repr z <> "-".
Proof.
  unfold int_repr. destruct z as [|p|p]; cbn [Z.to_int NilZero.string_of_int].
  - repeat split; discriminate.
  - destruct (uint_text_zero_digits (Pos.to_uint p)) as [Hd Hne].
    destruct (digits_are_number _ Hd) as [Hn Hm].
    repeat split; try assumption.
    intros E. rewrite E in Hd. discriminate Hd.
  - destruct (uint_text_zero_digits (Pos.to_uint p)) as [Hd Hne].
    destruct (digits_are_number _ Hd) as [Hn Hm].
    repeat split.
    + simpl. exact Hn.
    + simpl. exact Hm.
    + discriminate.
    + intros [= E]. now apply Hne.
Qed.

Lemma int_of_text_repr (z : Z) : int_of_text (int_repr z) = Some z.
Proof.
  unfold int_of_text, int_repr. rewrite NilZero.isi.
  - simpl. now rewrite DecimalZ.of_to.
  - destruct z as [|p|p]; simpl; try discriminate.
    intros [= E]. now apply (Unsigned.to_uint_nonnil p).
  - destruct z as [|p|p]; simpl; try discriminate.
    intros [= E]. now apply (Unsigned.to_uint_nonnil p).
Qed.

(** *** String literals *)

Lemma encode_char_head (c : ascii) :
  exists h r, encode_char c = String h r /\ Ascii.eqb h dquote = false.
Proof.
  destruct c as [[] [] [] [] [] [] [] []];
    eexists; eexists; split; reflexivity.
Qed.

Lemma read_chars_encode (t rest : string) :
  forall fuel,
    String.length (encode_chars t) < fuel ->
    read_chars fuel (encode_chars t ++ dq ++ rest) = Some (t, rest).
Proof.
  induction t as [|c t IH]; intros fuel Hfuel.
  - destruct fuel; [lia | reflexivity].
  - destruct fuel as [|fuel]; [lia |].
    cbn [encode_chars] in *. rewrite append_assoc.
    destruct (encode_char_head c) as (h & r & E & Hq).
    assert (Hlen : String.length (encode_chars t) < fuel).
    { rewrite length_append, E in Hfuel. simpl in Hfuel. lia. }
    pose proof (decode_first_encode_char c (encode_chars t ++ dq ++ rest)) as D.
    rewrite E in *. cbn [append read_chars]. rewrite Hq.
    change (String h (r ++ encode_chars t ++ dq ++ rest))
      with (String h r ++ encode_chars t ++ dq ++ rest).
    now rewrite D, (IH fuel Hlen).
Qed.

Lemma read_string_encode (t rest : string) :
  read_string (encode_chars t ++ dq ++ rest) = Some (t, rest).
Proof.
  unfold read_string. apply read_chars_encode.
  rewrite !length_append. simpl. lia.
Qed.

End ReadingTokens.

Section ReadingValues.

(** A reader looks at its text only behind the leading blanks. *)
Lemma read_value_skips (fuel : nat) (s1 s2 : string) :
  skip_ws s1 = skip_ws s2 -> read_value fuel s1 = read_value fuel s2.
Proof. intros H. destruct fuel; [reflexivity |]. simpl. now rewrite H. Qed.

Lemma read_items_skips (fuel : nat) (s1 s2 : string) :
  skip_ws s1 = skip_ws s2 -> read_items fuel s1 = read_items fuel s2.
Proof.
  intros H. destruct fuel; [reflexivity |].
  simpl. now rewrite (read_value_skips fuel s1 s2 H).
Qed.

Lemma read_members_skips (fuel : nat) (s1 s2 : string) :
  skip_ws s1 = skip_ws s2 -> read_members fuel s1 = read_members fuel s2.
Proof. intros H. destruct fuel; [reflexivity |]. simpl. now rewrite H. Qed.

Lemma skip_ws_begins (s : string) : begins_value s = true -> skip_ws s = s.
Proof.
  destruct s as [|h r]; [discriminate |]. simpl.
  intros H. apply andb_true_iff in H as [H _].
  apply andb_true_iff in H as [H _]. apply negb_true_iff in H. now rewrite H.
Qed.

(** A number token, followed by something that ends it, is read as the
    float or the integer that it writes. *)
Lemma read_value_token (fuel : nat) (token rest : string) :
  all_number token = true ->
  token <> "" -> token <> "-" ->
  delimited rest = true ->
  read_value (S fuel) (token ++ rest)
  = if has_float_mark token then Some (JFloat (Finite token), rest)
    else match int_of_text token with
         | Some z => Some (JInt z, rest)
         | None => None
         end.
Proof.
  intros Hall Hne Hminus Hrest.
  pose proof (span_number_app token rest Hall Hrest) as Hspan.
  destruct token as [|h t]; [contradiction |].
  simpl in Hall. apply andb_true_iff in Hall as [Hh _].
  destruct (number_char_is_plain h Hh) as (H1 & H2 & H3 & _ & _ & H6).
  change (String h t ++ rest) with (String h (t ++ rest)) in *.
  cbn [read_value skip_ws]. rewrite H1, H2, H3.
  unfold read_scalar. rewrite H6, Hspan.
  assert (E1 : String.eqb (String h t) "" = false) by reflexivity.
  assert (E2 : String.eqb (String h t) "-" = false)
    by now apply String.eqb_neq.
  now rewrite E1, E2.
Qed.

(** The first character of what [encode_at] writes. *)
Lemma encode_begins_value (level : nat) (v : JSON) (rest : string) :
  proper v = true -> begins_value (encode_at level v ++ rest) = true.
Proof.
  intros Hv.
  assert (Htoken : forall token,
             all_number token = true -> token <> "" ->
             begins_value (token ++ rest) = true).
  { intros [|h t] Hall Hne; [contradiction |].
    simpl in Hall. apply andb_true_iff in Hall as [Hh _].
    destruct (number_char_is_plain h Hh) as (H1 & _ & _ & H4 & H5 & _).
    simpl. now rewrite H1, H4, H5. }
  destruct v as [ | [] | z | [r | | | ] | t | [|x l] | [|m ms] ];
    try reflexivity.
  - destruct (int_repr_shape z) as (Hn & _ & Hne & _). now apply Htoken.
  - simpl in Hv. unfold float_text in Hv.
    apply andb_true_iff in Hv as [Hn Hm].
    apply (Htoken r); [exact Hn |].
    intros E. rewrite E in Hm. discriminate Hm.
Qed.

(** A value that is neither an array nor an object is read back. *)
Lemma read_value_leaf (fuel : nat) (level : nat) (v : JSON) (rest : string) :
  match v with JArr _ | JObj _ => False | _ => True end ->
  proper v = true ->
  delimited rest = true ->
  read_value (S fuel) (encode_at level v ++ rest) = Some (v, rest).
Proof.
  intros Hleaf Hv Hrest.
  destruct v as [ | [] | z | [r | | | ] | t | l | m ];
    try contradiction; try reflexivity.
  - destruct (int_repr_shape z) as (Hn & Hm & Hne & Hminus).
    cbn [encode_at].
    rewrite (read_value_token fuel (int_repr z) rest Hn Hne Hminus Hrest).
    now rewrite Hm, int_of_text_repr.
  - simpl in Hv. unfold float_text in Hv.
    apply andb_true_iff in Hv as [Hn Hm].
    cbn [encode_at float_json].
    rewrite (read_value_token fuel r rest Hn); [now rewrite Hm | | | exact Hrest].
    + intros E. rewrite E in Hm. discriminate Hm.
    + intros E. rewrite E in Hm. discriminate Hm.
  - change (encode_at level (JStr t) ++ rest)
      with ((dq ++ encode_chars t ++ dq) ++ rest).
    rewrite !append_assoc.
    pose proof (read_string_encode t rest) as R.
    set (body := encode_chars t ++ dq ++ rest) in *.
    change (read_value (S fuel) (dq ++ body))
      with (match read_string body with
            | Some (t', rest') => Some (JStr t', rest')
            | None => None
            end).
    now rewrite R.
Qed.

End ReadingValues.

Section ReadingContainers.

Lemma encode_array (level : nat) (x : JSON) (l : list JSON) (rest : string) :
  encode_at level (JArr (x :: l)) ++ rest
  = String "[" (newline_indent (S level)
                  ++ items_text (S level) (x :: l)
                  ++ newline_indent level ++ "]" ++ rest).
Proof.
  change (encode_at level (JArr (x :: l)))
    with ("[" ++ newline_indent (S level)
              ++ items_text (S level) (x :: l)
              ++ newline_indent level ++ "]").
  now rewrite !append_assoc.
Qed.

Lemma encode_object (level : nat) (m : string * JSON)
    (ms : list (string * JSON)) (rest : string) :
  encode_at level (JObj (m :: ms)) ++ rest
  = String "{" (newline_indent (S level)
                  ++ members_text (S level) (m :: ms)
                  ++ newline_indent level ++ "}" ++ rest).
Proof.
  change (encode_at level (JObj (m :: ms)))
    with ("{" ++ newline_indent (S level)
              ++ members_text (S level) (m :: ms)
              ++ newline_indent level ++ "}").
  now rewrite !append_assoc.
Qed.

Lemma items_text_more (level : nat) (x y : JSON) (l : list JSON) :
  items_text level (x :: y :: l)
  = encode_at level x ++ String "," (newline_indent level
                                       ++ items_text level (y :: l)).
Proof. reflexivity. Qed.

Lemma members_text_more (level : nat) (k : string) (x : JSON)
    (m : string * JSON) (ms : list (string * JSON)) :
  members_text level ((k, x) :: m :: ms)
  = (encode_str k ++ ": " ++ encode_at level x)
      ++ String "," (newline_indent level ++ members_text level (m :: ms)).
Proof. reflexivity. Qed.

Lemma items_begin (level : nat) (x : JSON) (l : list JSON) (rest : string) :
  proper x = true ->
  begins_value (items_text level (x :: l) ++ rest) = true.
Proof.
  intros Hx. destruct l as [|y l].
  - now apply encode_begins_value.
  - rewrite items_text_more, append_assoc. now apply encode_begins_value.
Qed.

Lemma indent_delimits (level : nat) (s : string) :
  delimited (newline_indent level ++ s) = true.
Proof. reflexivity. Qed.

(** An array that is not empty: the bracket, and then its items. *)
Lemma read_array_open (fuel level : nat) (body : string)
    (items : list JSON) (after : string) :
  begins_value body = true ->
  read_items fuel body = Some (items, after) ->
  read_value (S fuel) (String "[" (newline_indent level ++ body))
  = Some (JArr items, after).
Proof.
  intros Hb Hr.
  change (read_value (S fuel) (String "[" (newline_indent level ++ body)))
    with (match skip_ws (newline_indent level ++ body) with
          | "" => None
          | String c' rest' =>
              if Ascii.eqb c' "]" then Some (JArr [], rest')
              else match read_items fuel (newline_indent level ++ body) with
                   | Some (items, after) => Some (JArr items, after)
                   | None => None
                   end
          end).
  rewrite (read_items_skips fuel (newline_indent level ++ body) body)
    by apply skip_ws_indent.
  rewrite skip_ws_indent, (skip_ws_begins body Hb), Hr.
  destruct body as [|h r]; [discriminate Hb |].
  simpl in Hb. apply andb_true_iff in Hb as [Hb _].
  apply andb_true_iff in Hb as [_ Hb]. apply negb_true_iff in Hb.
  now rewrite Hb.
Qed.

(** An object that is not empty: the brace, and then its members. *)
Lemma read_object_open (fuel level : nat) (body : string)
    (members : list (string * JSON)) (after : string) :
  begins_value body = true ->
  read_members fuel body = Some (members, after) ->
  read_value (S fuel) (String "{" (newline_indent level ++ body))
  = Some (JObj members, after).
Proof.
  intros Hb Hr.
  change (read_value (S fuel) (String "{" (newline_indent level ++ body)))
    with (match skip_ws (newline_indent level ++ body) with
          | "" => None
          | String c' rest' =>
              if Ascii.eqb c' "}" then Some (JObj [], rest')
              else match read_members fuel (newline_indent level ++ body) with
                   | Some (members, after) => Some (JObj members, after)
                   | None => None
                   end
          end).
  rewrite (read_members_skips fuel (newline_indent level ++ body) body)
    by apply skip_ws_indent.
  rewrite skip_ws_indent, (skip_ws_begins body Hb), Hr.
  destruct body as [|h r]; [discriminate Hb |].
  simpl in Hb. apply andb_true_iff in Hb as [_ Hb]. apply negb_true_iff in Hb.
  now rewrite Hb.
Qed.

(** The last item of an array, and an item that has others after it. *)
Lemma read_items_last (fuel level : nat) (x : JSON) (body rest : string) :
  read_value fuel body = Some (x, newline_indent level ++ "]" ++ rest) ->
  read_items (S fuel) body = Some ([x], rest).
Proof.
  intros Hv. cbn [read_items]. rewrite Hv, skip_ws_indent. reflexivity.
Qed.

Lemma read_items_next (fuel level : nat) (x : JSON) (items : list JSON)
    (body more rest : string) :
  read_value fuel body = Some (x, String "," (newline_indent level ++ more)) ->
  read_items fuel more = Some (items, rest) ->
  read_items (S fuel) body = Some (x :: items, rest).
Proof.
  intros Hv Hi. cbn [read_items]. rewrite Hv.
  change (skip_ws (String "," (newline_indent level ++ more)))
    with (String "," (newline_indent level ++ more)).
  change (Ascii.eqb "," ",") with true. cbv iota.
  rewrite (read_items_skips fuel (newline_indent level ++ more) more)
    by apply skip_ws_indent.
  now rewrite Hi.
Qed.

(** The same for the members of an object, the key read first. *)
Lemma read_members_key (fuel : nat) (k : string) (body : string) :
  read_members (S fuel) (encode_str k ++ ": " ++ body)
  = match read_value fuel body with
    | None => None
    | Some (v, after) =>
        match skip_ws after with
        | "" => None
        | String c rest'' =>
            if Ascii.eqb c "," then
              match read_members fuel rest'' with
              | Some (members, rest3) => Some ((k, v) :: members, rest3)
              | None => None
              end
            else if Ascii.eqb c "}" then Some ([(k, v)], rest'')
            else None
        end
    end.
Proof.
  unfold encode_str. rewrite !append_assoc.
  pose proof (read_string_encode k (": " ++ body)) as R.
  set (tail := encode_chars k ++ dq ++ ": " ++ body) in *.
  change (read_members (S fuel) (dq ++ tail))
    with (match read_string tail with
          | None => None
          | Some (key, after_key) =>
              match skip_ws after_key with
              | "" => None
              | String colon rest' =>
                  if Ascii.eqb colon ":" then
                    match read_value fuel rest' with
                    | None => None
                    | Some (v, after) =>
                        match skip_ws after with
                        | "" => None
                        | String c rest'' =>
                            if Ascii.eqb c "," then
                              match read_members fuel rest'' with
                              | Some (members, rest3) =>
                                  Some ((key, v) :: members, rest3)
                              | None => None
                              end
                            else if Ascii.eqb c "}"
                                 then Some ([(key, v)], rest'')
                            else None
                        end
                    end
                  else None
              end
          end).
  rewrite R.
  change (skip_ws (": " ++ body)) with (String ":" (String " " body)).
  change (Ascii.eqb ":" ":") with true. cbv iota.
  now rewrite (read_value_skips fuel (String " " body) body) by reflexivity.
Qed.

End ReadingContainers.

Section ReadingBack.

(** With fuel for its weight, a proper value, the items of an array and
    the members of an object are read back from what [encode_at] wrote,
    and the text behind them is left. *)
Lemma read_back (fuel : nat) :
  (forall (v : JSON) (level : nat) (rest : string),
      weight v <= fuel -> proper v = true -> delimited rest = true ->
      read_value fuel (encode_at level v ++ rest) = Some (v, rest)) /\
  (forall (x : JSON) (l : list JSON) (level level' : nat) (rest : string),
      weights (x :: l) <= fuel -> forallb proper (x :: l) = true ->
      read_items fuel
        (items_text level (x :: l) ++ newline_indent level' ++ "]" ++ rest)
      = Some (x :: l, rest)) /\
  (forall (m : string * JSON) (ms : list (string * JSON))
          (level level' : nat) (rest : string),
      member_weights (m :: ms) <= fuel ->
      forallb (fun kv : string * JSON => proper (snd kv)) (m :: ms) = true ->
      read_members fuel
        (members_text level (m :: ms) ++ newline_indent level' ++ "}" ++ rest)
      = Some (m :: ms, rest)).
Proof.
  induction fuel as [|fuel (IHv & IHi & IHm)].
  - repeat split.
    + intros v level rest Hw. destruct v; simpl in Hw; lia.
    + intros x l level level' rest Hw. unfold weights in Hw. simpl in Hw. lia.
    + intros m ms level level' rest Hw.
      unfold member_weights in Hw. simpl in Hw. lia.
  - repeat split.
    + (* a value *)
      intros v level rest Hw Hv Hrest.
      destruct v as [ | b | z | f | t | [|x l] | [|m ms] ];
        try (apply read_value_leaf; [exact I | exact Hv | exact Hrest]).
      * reflexivity.
      * rewrite encode_array. cbn [proper] in Hv.
        apply read_array_open.
        -- apply items_begin. cbn [forallb] in Hv.
           now apply andb_true_iff in Hv as [Hx _].
        -- apply IHi; [| exact Hv].
           change (weight (JArr (x :: l))) with (S (weights (x :: l))) in Hw.
           lia.
      * reflexivity.
      * rewrite encode_object. cbn [proper] in Hv.
        apply read_object_open.
        -- destruct m as [k x]. destruct ms; reflexivity.
        -- apply IHm; [| exact Hv].
           change (weight (JObj (m :: ms)))
             with (S (member_weights (m :: ms))) in Hw.
           lia.
    + (* the items of an array *)
      intros x l level level' rest Hw Hall.
      cbn [forallb] in Hall. apply andb_true_iff in Hall as [Hx Hl].
      change (weights (x :: l)) with (S (weight x) + weights l) in Hw.
      destruct l as [|y l].
      * apply (read_items_last fuel level').
        apply IHv; [lia | exact Hx | apply indent_delimits].
      * rewrite items_text_more, append_assoc.
        change (String "," (newline_indent level ++ items_text level (y :: l))
                  ++ newline_indent level' ++ "]" ++ rest)
          with (String "," ((newline_indent level ++ items_text level (y :: l))
                              ++ newline_indent level' ++ "]" ++ rest)).
        rewrite append_assoc.
        apply (read_items_next fuel level x (y :: l) _
                 (items_text level (y :: l) ++ newline_indent level' ++ "]" ++ rest)).
        -- apply IHv; [lia | exact Hx | reflexivity].
        -- apply IHi; [lia | exact Hl].
    + (* the members of an object *)
      intros [k x] ms level level' rest Hw Hall.
      cbn [forallb snd] in Hall. apply andb_true_iff in Hall as [Hx Hms].
      change (member_weights ((k, x) :: ms))
        with (S (weight x) + member_weights ms) in Hw.
      destruct ms as [|m ms].
      * change (members_text level [(k, x)])
          with (encode_str k ++ ": " ++ encode_at level x).
        rewrite !append_assoc, read_members_key.
        rewrite IHv by (try lia; try exact Hx; apply indent_delimits).
        rewrite skip_ws_indent. reflexivity.
      * rewrite members_text_more, !append_assoc.
        rewrite read_members_key.
        change (String "," (newline_indent level ++ members_text level (m :: ms))
                  ++ newline_indent level' ++ "}" ++ rest)
          with (String "," ((newline_indent level ++ members_text level (m :: ms))
                              ++ newline_indent level' ++ "}" ++ rest)).
        rewrite IHv by (try lia; try exact Hx; reflexivity).
        change (skip_ws (String "," ?s)) with (String "," s).
        change (Ascii.eqb "," ",") with true. cbv iota.
        rewrite append_assoc.
        rewrite (read_members_skips fuel
                   (newline_indent level ++ members_text level (m :: ms)
                      ++ newline_indent level' ++ "}" ++ rest)
                   (members_text level (m :: ms)
                      ++ newline_indent level' ++ "}" ++ rest))
          by apply skip_ws_indent.
        now rewrite IHm by (try lia; exact Hms).
Qed.

(** What [json.dumps(v, indent=2)] wrote is read back as [v]. *)
Lemma read_value_dumps (fuel : nat) (v : JSON) (rest : string) :
  weight v <= fuel -> proper v = true -> delimited rest = true ->
  read_value fuel (dumps v ++ rest) = Some (v, rest).
Proof. intros. now apply (proj1 (read_back fuel)). Qed.

End ReadingBack.

Section ReadingThePrompt.

Lemma length_indent (level : nat) :
  String.length (newline_indent level) = S (String.length (spaces (2 * level))).
Proof. reflexivity. Qed.

(** The text of a value is at least as long as the value is heavy. *)
Lemma encode_length (n : nat) :
  (forall (v : JSON) (level : nat),
      weight v <= n -> proper v = true ->
      weight v <= String.length (encode_at level v)) /\
  (forall (x : JSON) (l : list JSON) (level : nat),
      weights (x :: l) <= n -> forallb proper (x :: l) = true ->
      weights (x :: l) <= S (String.length (items_text level (x :: l)))) /\
  (forall (m : string * JSON) (ms : list (string * JSON)) (level : nat),
      member_weights (m :: ms) <= n ->
      forallb (fun kv : string * JSON => proper (snd kv)) (m :: ms) = true ->
      member_weights (m :: ms)
      <= S (String.length (members_text level (m :: ms)))).
Proof.
  induction n as [|n (IHv & IHi & IHm)].
  - repeat split.
    + intros v level Hw. destruct v; simpl in Hw; lia.
    + intros x l level Hw. unfold weights in Hw. simpl in Hw. lia.
    + intros m ms level Hw. unfold member_weights in Hw. simpl in Hw. lia.
  - repeat split.
    + intros v level Hw Hv.
      destruct v as [ | [] | z | [r | | | ] | t | [|x l] | [|m ms] ];
        try (simpl; lia).
      * destruct (int_repr_shape z) as (_ & _ & Hne & _).
        cbn [encode_at weight]. destruct (int_repr z); [contradiction | simpl; lia].
      * simpl in Hv. unfold float_text in Hv.
        apply andb_true_iff in Hv as [_ Hm].
        cbn [encode_at weight float_json].
        destruct r; [discriminate Hm | simpl; lia].
      * rewrite <- (append_nil_r (encode_at level (JArr (x :: l)))).
        rewrite encode_array.
        change (weight (JArr (x :: l))) with (S (weights (x :: l))) in *.
        cbn [String.length]. rewrite !length_append, length_indent.
        cbn [proper] in Hv.
        pose proof (IHi x l (S level) ltac:(lia) Hv). lia.
      * rewrite <- (append_nil_r (encode_at level (JObj (m :: ms)))).
        rewrite encode_object.
        change (weight (JObj (m :: ms))) with (S (member_weights (m :: ms))) in *.
        cbn [String.length]. rewrite !length_append, length_indent.
        cbn [proper] in Hv.
        pose proof (IHm m ms (S level) ltac:(lia) Hv). lia.
    + intros x l level Hw Hall.
      cbn [forallb] in Hall. apply andb_true_iff in Hall as [Hx Hl].
      change (weights (x :: l)) with (S (weight x) + weights l) in *.
      pose proof (IHv x level ltac:(lia) Hx) as Lx.
      destruct l as [|y l].
      * change (items_text level [x]) with (encode_at level x).
        change (weights []) with 0. lia.
      * rewrite items_text_more, length_append.
        cbn [String.length]. rewrite length_append, length_indent.
        pose proof (IHi y l level ltac:(lia) Hl). lia.
    + intros [k x] ms level Hw Hall.
      cbn [forallb snd] in Hall. apply andb_true_iff in Hall as [Hx Hms].
      change (member_weights ((k, x) :: ms))
        with (S (weight x) + member_weights ms) in *.
      pose proof (IHv x level ltac:(lia) Hx) as Lx.
      destruct ms as [|m ms].
      * change (members_text level [(k, x)])
          with (encode_str k ++ ": " ++ encode_at level x).
        rewrite !length_append. change (member_weights []) with 0. lia.
      * rewrite members_text_more, !length_append.
        cbn [String.length]. rewrite length_append, length_indent.
        pose proof (IHm m ms level ltac:(lia) Hms). lia.
Qed.

Lemma weight_le_dumps (v : JSON) :
  proper v = true -> weight v <= String.length (dumps v).
Proof. intros Hv. now apply (proj1 (encode_length (weight v))). Qed.

Lemma startswith_app (a b : string) : startswith a (a ++ b) = true.
Proof. apply startswith_spec. now exists b. Qed.

Lemma skip_length_app (a b : string) : skip (String.length a) (a ++ b) = b.
Proof. induction a as [|c a IH]; [reflexivity | exact IH]. Qed.

(** The prompt is its header, the record as [json.dumps] wrote it, and
    the closing request. *)
Lemma response_prompt_parts (ns : Namespace) (user_query : string) :
  response_prompt ns user_query
  = prompt_header user_query
      ++ dumps (JObj ns)
      ++ nl ++ nl
      ++ "Based on the namespace data above, provide a comprehensive answer to the user's query.".
Proof. unfold response_prompt, prompt_header. now rewrite !append_assoc. Qed.

(** The record is read back from the prompt, with fuel for its weight
    and with the length of the prompt as fuel. *)
Lemma record_read_back (ns : Namespace) (user_query : string) :
  proper (JObj ns) = true ->
  (forall fuel,
      weight (JObj ns) <= fuel ->
      record_of_prompt fuel user_query (response_prompt ns user_query) = Some ns) /\
  record_in_prompt user_query (response_prompt ns user_query) = Some ns.
Proof.
  intros Hp.
  assert (R : forall fuel,
             weight (JObj ns) <= fuel ->
             record_of_prompt fuel user_query (response_prompt ns user_query)
             = Some ns).
  { intros fuel Hw. unfold record_of_prompt.
    rewrite response_prompt_parts, startswith_app, skip_length_app.
    rewrite (read_value_dumps fuel (JObj ns)); auto. }
  split; [exact R |].
  apply R. pose proof (weight_le_dumps (JObj ns) Hp) as L.
  rewrite response_prompt_parts, !length_append. lia.
Qed.

End ReadingThePrompt.

(* ================================================================== *)
(** ** The record in the prompt of the synthesizer *)
(* ================================================================== *)

(** C8: for a record found by the lookup, [formulate_response] sends the
    backend one request whose prompt holds the query and the whole
    serialized record.  Nothing of the record is lost in it: a reader of
    JSON text that knows nothing of the encoder gets the very record
    back from the prompt, every field with its value at every depth.
    ([proper] asks of the finite floats in the record that they are
    written as [float.__repr__] writes floats, which holds of every value
    that [json.load] builds.)  Besides, the text that [json.dumps] writes
    for the record, and for each of its members, occurs in the prompt. *)
Theorem formulate_response_embeds_record
    (B : Backend) (DATA : Document) (self : Agent)
    (namespace_id user_query : string) (w : World) (ns : Namespace) :
  get_namespace_data DATA namespace_id = Some ns ->
  calls (snd (formulate_response B DATA self namespace_id user_query w))
  = (calls w ++ [call_of self (response_prompt ns user_query)])%list /\
  occurs_in user_query (response_prompt ns user_query) /\
  (proper (JObj ns) = true ->
   record_in_prompt user_query (response_prompt ns user_query) = Some ns /\
   forall fuel,
     weight (JObj ns) <= fuel ->
     record_of_prompt fuel user_query (response_prompt ns user_query)
     = Some ns) /\
  occurs_in (dumps (JObj ns)) (response_prompt ns user_query) /\
  (forall (key : string) (value : JSON),
      In (key, value) ns ->
      occurs_in (encode_str key ++ ": " ++ encode_at 1 value)
                (response_prompt ns user_query)).
Proof.
  intros Hfound.
  assert (Hdump : occurs_in (dumps (JObj ns)) (response_prompt ns user_query)).
  { unfold response_prompt.
    do 7 apply occurs_in_app_l. apply occurs_in_app_r, occurs_in_refl. }
  split; [| split; [| split; [| split]]].
  - unfold formulate_response. rewrite Hfound.
    destruct ns as [|m ms]; [now apply found_not_empty in Hfound |].
    unfold bind, ret.
    pose proof (generate_calls B self
                  (response_prompt (m :: ms) user_query) w) as G.
    now destruct (generate B self (response_prompt (m :: ms) user_query) w).
  - unfold response_prompt.
    do 2 apply occurs_in_app_l. apply occurs_in_app_r, occurs_in_refl.
  - intros Hp. destruct (record_read_back ns user_query Hp) as [R1 R2].
    split; [exact R2 | exact R1].
  - exact Hdump.
  - intros key value Hin.
    apply (occurs_in_trans _ (dumps (JObj ns))); [| exact Hdump].
    exact (member_occurs 0 ns (key, value) Hin).
Qed.

Lemma formulate_response_embeds_record_witness :
  record_in_prompt "What is inertia?"
    (response_prompt mechanics "What is inertia?")
  = Some mechanics.
Proof.
  refine (proj1 (proj1 (proj2 (proj2
    (formulate_response_embeds_record (always (Text "unused"))
       [("dataset", [mechanics])]
       NamespaceResponseAgent "ns1" "What is inertia?" initial_world
       mechanics _))) _)); reflexivity.
Defined.

(** A record with values of every kind, nested, is read back from its
    prompt. *)
Example nested_record_read_back :
  let record : Namespace :=
    [("namespace_id", JStr "ns7");
     ("title", JStr (String dquote "quoted\" ++ nl ++ "two lines"));
     ("rank", JInt (-12)); ("score", JFloat (Finite "1.5e-07"));
     ("open", JBool true); ("parent", JNull);
     ("topics", JArr [JStr "a,b"; JArr []; JObj [("k", JArr [JInt 0])]]);
     ("empty", JObj [])] in
  record_in_prompt "q" (response_prompt record "q") = Some record.
Proof. vm_compute. reflexivity. Qed.
